(** * spend-wise: the expense log, the rollover prompt and the period engine

    A shallow embedding of

    - [src/components/DailyLog.tsx] (the expense-logging component),
    - the [NewPeriodPrompt] component (the rollover prompt), and
    - the period lifecycle engine ([@/utils/periodManager] and
      [@/utils/monthlyPeriod]) that both components import; its
      definitions below are modelled from the specification and are marked
      as such.

    React state is a record; an event handler is a function from the state
    captured by its closure (and the outcomes of the promises it awaits) to
    the list of actions it performs, in program order. *)

From stdpp Require Import gmap strings list.
From Stdlib Require Import ZArith QArith Qpower String Ascii List Lia Bool.
Import ListNotations.
Open Scope string_scope.
Open Scope list_scope.

(** ** JavaScript primitives used by the components *)

Module Js.

(** [!s] on a string: only the empty string is falsy. *)
Definition truthy (s : string) : bool :=
  match s with
  | EmptyString => false
  | String _ _ => true
  end.

(** [!u] on [string | undefined]. *)
Definition truthy_opt (u : option string) : bool :=
  match u with
  | None => false
  | Some s => truthy s
  end.

(** White space of the ASCII range (TAB, LF, VT, FF, CR, SP); strings are
    byte strings here, so the non-ASCII white space of ECMAScript is not
    recognised. *)
Definition is_ws (c : ascii) : bool :=
  let n := nat_of_ascii c in
  ((9 <=? n)%nat && (n <=? 13)%nat) || (n =? 32)%nat.

Fixpoint trimStart (s : string) : string :=
  match s with
  | String c r => if is_ws c then trimStart r else s
  | EmptyString => EmptyString
  end.

(** [trimEnd] drops the white space that is followed by white space only. *)
Fixpoint trimEnd (s : string) : string :=
  match s with
  | EmptyString => EmptyString
  | String c r =>
      match trimEnd r with
      | EmptyString => if is_ws c then EmptyString else String c EmptyString
      | r' => String c r'
      end
  end.

(** [String.prototype.trim], for the white space above: the Unicode white
    space outside the ASCII range (U+00A0 and the like), which the
    built-in also strips, is kept. *)
Definition trim (s : string) : string := trimEnd (trimStart s).

(** A JavaScript number.  [Finite q] stands for the double nearest to the
    rational [q]; rounding is monotone, so the sign of a parsed decimal
    literal is the sign of [q] (up to a negative underflow to [-0]). *)
Inductive number : Type :=
| NaN
| Infinity (negative : bool)
| Finite (q : Q).

(** [n >= 0]. *)
Definition nonneg (n : number) : bool :=
  match n with
  | NaN => false
  | Infinity negative => negb negative
  | Finite q => Qle_bool 0 q
  end.

Definition digit_of (c : ascii) : option Z :=
  let n := nat_of_ascii c in
  if ((48 <=? n)%nat && (n <=? 57)%nat) then Some (Z.of_nat n - 48)%Z else None.

(** The longest prefix of decimal digits, most significant first, and the
    rest of the string. *)
Fixpoint read_digits (s : string) : list Z * string :=
  match s with
  | String c r =>
      match digit_of c with
      | Some d => let '(ds, rest) := read_digits r in (d :: ds, rest)
      | None => ([], s)
      end
  | EmptyString => ([], EmptyString)
  end.

Definition digits_value (ds : list Z) : Z :=
  fold_left (fun acc d => 10 * acc + d)%Z ds 0%Z.

Definition read_sign (s : string) : bool * string :=
  match s with
  | String "-" r => (true, r)
  | String "+" r => (false, r)
  | _ => (false, s)
  end.

(** [ExponentPart]: [e] or [E], an optional sign and at least one digit;
    anything else is no exponent. *)
Definition read_exponent (s : string) : Z :=
  match s with
  | String c r =>
      if (Ascii.eqb c "e" || Ascii.eqb c "E")%bool then
        let '(neg, r1) := read_sign r in
        match read_digits r1 with
        | ([], _) => 0%Z
        | (ds, _) => if neg then (- digits_value ds)%Z else digits_value ds
        end
      else 0%Z
  | EmptyString => 0%Z
  end.

(** [parseFloat]: skip leading white space, then read the longest prefix
    that is a [StrDecimalLiteral]; [NaN] when there is none.  The value
    is the exact rational the literal denotes: the rounding to a double,
    the overflow to [Infinity] ("1e400") and the underflow to zero
    ("-1e-400" gives -0) of the built-in are not modelled, nor is white
    space outside the ASCII range skipped. *)
Definition parseFloat (s : string) : number :=
  let s1 := trimStart s in
  let '(neg, s2) := read_sign s1 in
  if String.prefix "Infinity" s2 then Infinity neg
  else
    let '(ip, s3) := read_digits s2 in
    let '(fp, s4) :=
      match s3 with
      | String "." r => read_digits r
      | _ => ([], s3)
      end in
    match ip, fp with
    | [], [] => NaN
    | _, _ =>
        let mantissa :=
          (inject_Z (digits_value ip)
           + inject_Z (digits_value fp) / inject_Z (10 ^ Z.of_nat (List.length fp)))%Q in
        let magnitude := (mantissa * Qpower (10 # 1) (read_exponent s4))%Q in
        Finite (Qred (if neg then - magnitude else magnitude)%Q)
    end.

(** Whether a string begins, or ends, with white space. *)
Definition startsWithWs (s : string) : bool :=
  match s with
  | String c _ => is_ws c
  | EmptyString => false
  end.

Fixpoint endsWithWs (s : string) : bool :=
  match s with
  | EmptyString => false
  | String c EmptyString => is_ws c
  | String _ r => endsWithWs r
  end.

(** Whether every character of a string is in the ASCII range (where the
    white space above is all the white space there is). *)
Fixpoint isAscii (s : string) : bool :=
  match s with
  | EmptyString => true
  | String c r => (nat_of_ascii c <? 128)%nat && isAscii r
  end.

(** Whether the first character after the leading white space is a minus
    sign. *)
Definition startsWithMinus (s : string) : bool :=
  match trimStart s with
  | String "-" _ => true
  | _ => false
  end.

End Js.

(** ** [DailyLog]: the expense-logging component *)

Module Expense.
(** [interface Expense]. *)
Record t : Type := mk
  { id : string; date : string; category : string;
    amount : Js.number; note : string }.
End Expense.

Module NewExpense.
(** The object literal [newExpense] of [handleAddExpense]: an expense
    that has no id yet. *)
Record t : Type := mk
  { date : string; category : string; amount : Js.number; note : string }.

(** [{ id, ...newExpense }]. *)
Definition withId (id : string) (e : t) : Expense.t :=
  Expense.mk id (date e) (category e) (amount e) (note e).
End NewExpense.

Module BudgetCategory.
(** [interface BudgetCategory]. *)
Record t : Type := mk
  { id : string; name : string; plannedAmount : Js.number }.
End BudgetCategory.

(** The settled state of an awaited promise. *)
Inductive Outcome (A : Type) : Type :=
| Resolved (a : A)
| Rejected.
Arguments Resolved {A} a.
Arguments Rejected {A}.

Module DailyLog.

(** The [useState] cells of the component. *)
Record State : Type := mkState
  { expenses : list Expense.t;
    categories : list BudgetCategory.t;
    selectedCategory : string;
    amount : string;
    note : string;
    date : string;
    loading : bool;
    error : option string }.

(** Calls into the store gateway of [@/utils/periodManager]. *)
Inductive StoreCall : Type :=
| AddExpense (uid : string) (e : NewExpense.t)
| GetExpenses (uid : string)
| GetCategories (uid : string).

Inductive ToastVariant : Type := Default | Destructive.

(** What a handler does, in program order: state setters, toasts, store
    calls, and the points where an awaited call has settled and the
    handler resumes ([ok] tells whether the promise resolved). *)
Inductive Action : Type :=
| SetExpenses (v : list Expense.t)
| SetCategories (v : list BudgetCategory.t)
| SetSelectedCategory (v : string)
| SetAmount (v : string)
| SetNote (v : string)
| SetDate (v : string)
| SetLoading (v : bool)
| SetError (v : option string)
| Toast (title : string) (description : option string) (variant : ToastVariant)
| Call (c : StoreCall)
| Settled (c : StoreCall) (ok : bool).

Definition applyAction (s : State) (a : Action) : State :=
  match a with
  | SetExpenses v =>
      mkState v (categories s) (selectedCategory s) (amount s) (note s) (date s) (loading s) (error s)
  | SetCategories v =>
      mkState (expenses s) v (selectedCategory s) (amount s) (note s) (date s) (loading s) (error s)
  | SetSelectedCategory v =>
      mkState (expenses s) (categories s) v (amount s) (note s) (date s) (loading s) (error s)
  | SetAmount v =>
      mkState (expenses s) (categories s) (selectedCategory s) v (note s) (date s) (loading s) (error s)
  | SetNote v =>
      mkState (expenses s) (categories s) (selectedCategory s) (amount s) v (date s) (loading s) (error s)
  | SetDate v =>
      mkState (expenses s) (categories s) (selectedCategory s) (amount s) (note s) v (loading s) (error s)
  | SetLoading v =>
      mkState (expenses s) (categories s) (selectedCategory s) (amount s) (note s) (date s) v (error s)
  | SetError v =>
      mkState (expenses s) (categories s) (selectedCategory s) (amount s) (note s) (date s) (loading s) v
  | Toast _ _ _ | Call _ | Settled _ _ => s
  end.

Definition applyActions (s : State) (acts : list Action) : State :=
  fold_left applyAction acts s.

(** The store writes among the actions of a handler. *)
Definition storeWrites (acts : list Action) : list (string * NewExpense.t) :=
  flat_map (fun a => match a with
                     | Call (AddExpense u e) => [(u, e)]
                     | _ => []
                     end) acts.

Definition toasts (acts : list Action) : list Action :=
  List.filter (fun a => match a with Toast _ _ _ => true | _ => false end) acts.

(** The store calls among the actions of a handler, in order. *)
Definition storeCalls (acts : list Action) : list StoreCall :=
  flat_map (fun a => match a with Call c => [c] | _ => [] end) acts.

Definition setsExpenses (a : Action) : bool :=
  match a with SetExpenses _ => true | _ => false end.

(** The state of the first render; [today] is
    [new Date().toISOString().split('T')[0]]. *)
Definition initialState (today : string) : State :=
  mkState [] [] "" "" "" today true None.

(** What the component renders. *)
Inductive View : Type :=
| LoadingView (text : string)
| ErrorView (message : string)
| LogView (form : string * string * string * string)
          (options : list BudgetCategory.t)
          (todaysExpenses : list Expense.t).

Section Component.

(** [useAuth().user?.uid], [useCurrency().currency] and the translation
    function [useTranslation().t] (key and interpolation options). *)
Variable uid : option string.
Variable currency : string.
Variable t : string -> list (string * string) -> string.

(** The body of the [useEffect] up to the [Promise.all], for a user [u]. *)
Definition loadStart (u : string) : list Action :=
  [SetLoading true; SetError None; Call (GetExpenses u); Call (GetCategories u)].

(** The [then] and [catch] callbacks of the [Promise.all]: it rejects as
    soon as one of the two reads rejects. *)
Definition loadSettle (es : Outcome (list Expense.t))
           (cs : Outcome (list BudgetCategory.t)) : list Action :=
  match es, cs with
  | Resolved e, Resolved c => [SetExpenses e; SetCategories c; SetLoading false]
  | _, _ => [SetError (Some (t "dailyLog.failed_to_load_data" [])); SetLoading false]
  end.

(** The [useEffect]: nothing without a user; else the two reads are
    started and [es] and [cs] are their outcomes. *)
Definition loadData (es : Outcome (list Expense.t))
           (cs : Outcome (list BudgetCategory.t)) : list Action :=
  if negb (Js.truthy_opt uid) then []
  else loadStart (default "" uid) ++ loadSettle es cs.

(** [handleAddExpense], run on the state [s] its closure captured;
    [added] and [reloaded] are the outcomes of the awaited
    [addExpense(uid, newExpense)] and [getExpenses(uid)]. *)
Definition handleAddExpense (s : State) (added : Outcome unit)
           (reloaded : Outcome (list Expense.t)) : list Action :=
  if (negb (Js.truthy (selectedCategory s)) || negb (Js.truthy (amount s)))%bool then
    [Toast (t "dailyLog.select_category_and_amount" []) None Destructive]
  else if negb (Js.truthy_opt uid) then []
  else
    let u := default "" uid in
    let newExpense :=
      NewExpense.mk (date s) (selectedCategory s)
                    (Js.parseFloat (amount s)) (Js.trim (note s)) in
    Call (AddExpense u newExpense) ::
    match added with
    | Rejected =>
        [ Settled (AddExpense u newExpense) false;
          Toast (t "dailyLog.failed_to_add_expense" []) None Destructive ]
    | Resolved _ =>
        [ Settled (AddExpense u newExpense) true;
          SetExpenses (NewExpense.withId "pending" newExpense :: expenses s);
          SetSelectedCategory "";
          SetAmount "";
          SetNote "";
          Toast (t "dailyLog.expense_logged" [])
                (Some (t "dailyLog.spent_on"
                         [("currency", currency); ("amount", amount s);
                          ("selectedCategory", selectedCategory s)]))
                Default;
          Call (GetExpenses u) ] ++
        match reloaded with
        | Resolved updated => [Settled (GetExpenses u) true; SetExpenses updated]
        | Rejected =>
            [ Settled (GetExpenses u) false;
              Toast (t "dailyLog.failed_to_add_expense" []) None Destructive ]
        end
    end.

(** The two early returns, and the form with the expenses of the selected
    date below it (their total, a floating-point sum, is left out). *)
Definition render (s : State) : View :=
  if loading s then LoadingView (t "loading" [])
  else
    match error s with
    | Some e =>
        if Js.truthy e then ErrorView e
        else LogView (date s, selectedCategory s, amount s, note s) (categories s)
                     (List.filter (fun e => String.eqb (Expense.date e) (date s)) (expenses s))
    | None =>
        LogView (date s, selectedCategory s, amount s, note s) (categories s)
                (List.filter (fun e => String.eqb (Expense.date e) (date s)) (expenses s))
    end.

End Component.

(** Every update of the local list in [acts] comes after a confirmed
    store write; [confirmed] tells whether one was seen already. *)
Fixpoint updatesConfirmed (confirmed : bool) (acts : list Action) : bool :=
  match acts with
  | [] => true
  | SetExpenses _ :: rest => confirmed && updatesConfirmed confirmed rest
  | Settled (AddExpense _ _) true :: rest => updatesConfirmed true rest
  | _ :: rest => updatesConfirmed confirmed rest
  end.

(** The flow as the design notes of the specification describe it, to be
    compared with [handleAddExpense]: the list is updated before the
    write has settled, and after a failed write the optimistic entry is
    still in the list. *)
Definition optimisticWithoutRollback (uid : option string) (currency : string)
           (t : string -> list (string * string) -> string) (s : State)
           (added : Outcome unit) (reloaded : Outcome (list Expense.t)) : Prop :=
  let acts := handleAddExpense uid currency t s added reloaded in
  forall u e, In (u, e) (storeWrites acts) ->
    (exists pre v post ok,
        acts = pre ++ SetExpenses v :: post /\ In (Settled (AddExpense u e) ok) post)
    /\ (added = Rejected ->
        In (NewExpense.withId "pending" e) (expenses (applyActions s acts))).

(** The boundary as the specification describes it, to be compared with
    [handleAddExpense]: whatever is written to the store has a
    non-negative amount. *)
Definition amountsValidated (uid : option string) (currency : string)
           (t : string -> list (string * string) -> string) (s : State)
           (added : Outcome unit) (reloaded : Outcome (list Expense.t)) : Prop :=
  forall u e, In (u, e) (storeWrites (handleAddExpense uid currency t s added reloaded)) ->
    Js.nonneg (NewExpense.amount e) = true.

End DailyLog.

(** ** [NewPeriodPrompt]: the rollover prompt *)

Module NewPeriodPrompt.

(** The two engine operations the prompt calls. *)
Inductive EngineOp : Type := ArchiveCurrentPeriod | MarkPeriodAsChecked.

(** What can be observed while a click is handled and afterwards. *)
Inductive Event : Type :=
| Invoked (op : EngineOp)
| Completed (op : EngineOp)
| ToastShown (title description : string)
| Closed.

(** An engine operation that is suspended on a store call; [remaining]
    counts the store calls it still has to wait for after this one. *)
Record Pending : Type := mkPending { op : EngineOp; remaining : nat }.

(** The trace so far and the operations whose promise is still pending. *)
Record World : Type := mkWorld { trace : list Event; pending : list Pending }.

Definition emit (e : Event) (w : World) : World :=
  mkWorld (trace w ++ [e]) (pending w).

Definition initial : World := mkWorld [] [].

Section Prompt.

(** How many store calls an engine operation awaits before its promise
    settles.  The operations are the asynchronous ones of
    [@/utils/periodManager]; their bodies are not modelled here, only
    how often they suspend. *)
Variable awaits : EngineOp -> nat.

(** A call [f()] of an [async] function whose promise is dropped: the
    body runs up to its first [await]; the rest runs from the job queue
    once the current handler has returned. *)
Definition callWithoutAwait (f : EngineOp) (w : World) : World :=
  let w1 := emit (Invoked f) w in
  match awaits f with
  | O => emit (Completed f) w1
  | S n => mkWorld (trace w1) (pending w1 ++ [mkPending f n])
  end.

Definition toast (title description : string) (w : World) : World :=
  emit (ToastShown title description) w.

(** The [onClose] prop, observed as an event. *)
Definition onClose (w : World) : World := emit Closed w.

Definition handleArchiveAndStart (w : World) : World :=
  let w1 := callWithoutAwait ArchiveCurrentPeriod w in
  let w2 := toast "New period started! 🎉"
                  "Previous expenses have been archived and your budget is ready for the new month."
                  w1 in
  onClose w2.

Definition handleContinue (w : World) : World :=
  let w1 := callWithoutAwait MarkPeriodAsChecked w in
  onClose w1.

(** The event loop after the handler has returned: every pending
    operation is resumed until its promise settles. *)
Definition runJobs (w : World) : World :=
  mkWorld (trace w ++ map (fun j => Completed (op j)) (pending w)) [].

(** A click: the handler runs to completion, then the job queue. *)
Definition click (handler : World -> World) : list Event :=
  trace (runJobs (handler initial)).

End Prompt.

(** What the user sees of a trace: the toasts and the closing of the
    prompt. *)
Definition visible (l : list Event) : list Event :=
  List.filter (fun e => match e with
                        | ToastShown _ _ | Closed => true
                        | Invoked _ | Completed _ => false
                        end) l.

(** [a] occurs in [l], and a [b] occurs later. *)
Definition precedes (a b : Event) (l : list Event) : Prop :=
  exists l1 l2 l3, l = l1 ++ a :: l2 ++ b :: l3.

(** What the specification asks of a handler's trace: [onClose] is
    invoked, and not before the operation has completed. *)
Definition closesAfterCompletion (f : EngineOp) (l : list Event) : Prop :=
  In Closed l /\ ~ precedes Closed (Completed f) l.

End NewPeriodPrompt.

(** ** The period calculator ([@/utils/monthlyPeriod]) *)

Module MonthlyPeriod.

(** Modelled from the spec: the instants of the data model, as the local
    wall-clock reading the period boundaries are defined on (calendar
    year, month 1..12, day of month, milliseconds since local midnight). *)
Record Instant : Type := mkInstant
  { year : Z; month : Z; day : Z; timeOfDay : Z }.

Definition midnight (y m d : Z) : Instant := mkInstant y m d 0.

(** Chronological order of wall-clock readings. *)
Definition compareInstant (a b : Instant) : comparison :=
  match (year a ?= year b)%Z with
  | Eq => match (month a ?= month b)%Z with
          | Eq => match (day a ?= day b)%Z with
                  | Eq => (timeOfDay a ?= timeOfDay b)%Z
                  | c => c
                  end
          | c => c
          end
  | c => c
  end.

Definition beforeInstant (a b : Instant) : Prop := compareInstant a b = Lt.

(** Modelled from the spec: [Period], section 3 of the specification
    ([end] is written [end_]). *)
Record Period : Type := mkPeriod
  { id : string; start : Instant; end_ : Instant }.

Definition digitChar (d : Z) : ascii := ascii_of_nat (48 + Z.to_nat d).

(** The last [width] decimal digits of [n], zero-padded. *)
Fixpoint padded (width : nat) (n : Z) : string :=
  match width with
  | O => EmptyString
  | S w => (padded w (n / 10) ++ String (digitChar (n mod 10)) EmptyString)%string
  end.

(** Modelled from the spec: the canonical key of a period, the year and
    month of its start ("2024-06"). *)
Definition periodKey (y m : Z) : string :=
  (padded 4 y ++ "-" ++ padded 2 m)%string.

(** Months counted from year 0: the arithmetic a [Date] constructor does
    when it is given a month outside 0..11. *)
Definition monthIndex (y m : Z) : Z := (y * 12 + (m - 1))%Z.
Definition yearOfIndex (i : Z) : Z := (i / 12)%Z.
Definition monthOfIndex (i : Z) : Z := (i mod 12 + 1)%Z.

(** Local midnight of day [d] of the month with index [i]. *)
Definition boundary (i d : Z) : Instant :=
  midnight (yearOfIndex i) (monthOfIndex i) d.

(** The key of the period that starts in the month with index [i]. *)
Definition keyOfIndex (i : Z) : string :=
  periodKey (yearOfIndex i) (monthOfIndex i).

(** The period that starts on day [d] of the month with index [i]. *)
Definition periodAt (i d : Z) : Period :=
  mkPeriod (keyOfIndex i) (boundary i d) (boundary (i + 1) d).

(** Modelled from the spec: "[startDay] is clamped to <= 28". *)
Definition clampStartDay (startDay : Z) : Z := Z.min startDay 28.

(** The index of the month the period of [now] starts in: this month when
    the day of month has reached the start day, else the month before. *)
Definition startIndex (now : Instant) (startDay : Z) : Z :=
  let i := monthIndex (year now) (month now) in
  if (clampStartDay startDay <=? day now)%Z then i else (i - 1)%Z.

(** Modelled from the spec: [computePeriod(now, startDay)] of section
    4.1, the period that contains [now]. *)
Definition computePeriod (now : Instant) (startDay : Z) : Period :=
  periodAt (startIndex now startDay) (clampStartDay startDay).

(** The period immediately before [p]. *)
Definition precedingPeriod (p : Period) : Period :=
  periodAt (monthIndex (year (start p)) (month (start p)) - 1) (day (start p)).

(** The calendar months next to a month, as the specification names
    them: [thisMonth], [nextMonth], [prevMonth]. *)
Definition nextMonth (ym : Z * Z) : Z * Z :=
  let '(y, m) := ym in if (m =? 12)%Z then ((y + 1)%Z, 1%Z) else (y, (m + 1)%Z).
Definition prevMonth (ym : Z * Z) : Z * Z :=
  let '(y, m) := ym in if (m =? 1)%Z then ((y - 1)%Z, 12%Z) else (y, (m - 1)%Z).
Definition startDayOf (ym : Z * Z) (startDay : Z) : Instant :=
  midnight (fst ym) (snd ym) startDay.

(** A calendar date written [YYYY-MM-DD], as the expense log stores it. *)
Definition parseDate (s : string) : option Instant :=
  match Js.read_digits s with
  | (y :: ys, String "-" r1) =>
      match Js.read_digits r1 with
      | (m :: ms, String "-" r2) =>
          match Js.read_digits r2 with
          | (d :: ds, EmptyString) =>
              Some (midnight (Js.digits_value (y :: ys)) (Js.digits_value (m :: ms))
                             (Js.digits_value (d :: ds)))
          | _ => None
          end
      | _ => None
      end
  | _ => None
  end.

End MonthlyPeriod.


(** ** The period detector and the archive manager ([@/utils/periodManager]) *)

Module PeriodManager.

Import MonthlyPeriod.

(** Modelled from the spec: [ArchiveRecord], section 3. *)
Record ArchiveRecord : Type := mkArchiveRecord
  { periodId : string; snapshotOf : list Expense.t; archivedAt : Instant }.

(** Modelled from the spec: what the store behind the PersistenceGateway
    holds for one user: the working set of expenses, the categories, the
    archive records and the LastAcknowledgedMarker of section 3. *)
Record UserData : Type := mkUserData
  { expenses : list Expense.t;
    categories : list BudgetCategory.t;
    archives : list ArchiveRecord;
    lastAcknowledged : option string }.

Definition emptyUser : UserData := mkUserData [] [] [] None.

(** The store, keyed by user identifier. *)
Abbreviation Store := (gmap string UserData).

Definition userData (st : Store) (uid : string) : UserData :=
  default emptyUser (st !! uid).

(** Modelled from the spec: the error kind of section 7 that reaches the
    caller ([ArchiveConflict] and [InvalidMarkerState] are never
    reported). *)
Inductive EngineError : Type := StoreUnavailable.

(** Modelled from the spec: the calls of the PersistenceGateway contract
    of section 6 that the engine uses. *)
Inductive GatewayOp : Type :=
| GetExpensesOp
| GetLastAcknowledgedPeriodOp
| SetLastAcknowledgedPeriodOp
| GetArchiveRecordOp
| WriteArchiveRecordOp
| RemoveExpensesOp.

(** Modelled from the spec: an engine operation is a computation over the
    store that can fail; what it wrote before it failed stays written
    (section 4.3, step 6). *)
Definition Gateway (A : Type) : Type := Store -> (EngineError + A) * Store.

Definition ret {A : Type} (a : A) : Gateway A := fun st => (inr a, st).

Definition bind {A B : Type} (c : Gateway A) (k : A -> Gateway B) : Gateway B :=
  fun st =>
    match c st with
    | (inl e, st') => (inl e, st')
    | (inr a, st') => k a st'
    end.

Notation "'let*' x := c 'in' k" := (bind c (fun x => k))
  (at level 10, x name, c at level 100, k at level 200).
Notation "'do*' c 'in' k" := (bind c (fun _ => k))
  (at level 10, c at level 100, k at level 200).

(** Record counting and lookup by period id. *)
Definition forPeriod (pid : string) (r : ArchiveRecord) : bool :=
  String.eqb (periodId r) pid.

Definition recordsFor (pid : string) (l : list ArchiveRecord) : nat :=
  List.length (List.filter (forPeriod pid) l).

(** [a > b] on strings: comparison by code units. *)
Definition stringGt (a b : string) : bool :=
  match String.compare a b with
  | Gt => true
  | _ => false
  end.

(** Modelled from the spec: the result of [checkForNewPeriod]. *)
Record CheckResult : Type := mkCheckResult
  { isNew : bool; currentPeriod : Period }.

Section Engine.

(** The configured start day of the budget period. *)
Variable startDay : Z.

(** Modelled from the spec: [checkForNewPeriod] of section 4.2, with its
    forward-only edge case: a marker greater than the current id is
    not new. *)
Definition checkForNewPeriod (lastAcknowledged : option string) (now : Instant)
  : CheckResult :=
  let currentPeriod := computePeriod now startDay in
  mkCheckResult
    match lastAcknowledged with
    | None => true
    | Some la =>
        if stringGt la (id currentPeriod) then false
        else negb (String.eqb la (id currentPeriod))
    end
    currentPeriod.

(** The id of the period an expense is dated in. *)
Definition expensePeriod (e : Expense.t) : option string :=
  match parseDate (Expense.date e) with
  | Some d => Some (id (computePeriod d startDay))
  | None => None
  end.

Definition datedIn (pid : string) (e : Expense.t) : bool :=
  match expensePeriod e with
  | Some p => String.eqb p pid
  | None => false
  end.

(** Modelled from the spec: step 1 of [archiveCurrentPeriod], the
    period that rolled over: the one the stale marker names and, when
    there is no stale marker (none at all, or one that already names
    the current period), the period just before the current one. *)
Definition previousPeriodId (marker : option string) (current : Period) : string :=
  match marker with
  | Some m => if String.eqb m (id current) then id (precedingPeriod current) else m
  | None => id (precedingPeriod current)
  end.

(** Which gateway calls fail with [StoreUnavailable] while one engine
    operation runs. *)
Variable unavailable : GatewayOp -> bool.

Definition call {A : Type} (o : GatewayOp) (f : Store -> A * Store) : Gateway A :=
  fun st =>
    if unavailable o then (inl StoreUnavailable, st)
    else let '(a, st') := f st in (inr a, st').

(** Modelled from the spec: the PersistenceGateway contract of section
    6, on the store above. *)
Definition getExpenses (uid : string) : Gateway (list Expense.t) :=
  call GetExpensesOp (fun st => (expenses (userData st uid), st)).

Definition getLastAcknowledgedPeriod (uid : string) : Gateway (option string) :=
  call GetLastAcknowledgedPeriodOp (fun st => (lastAcknowledged (userData st uid), st)).

Definition setLastAcknowledgedPeriod (uid pid : string) : Gateway unit :=
  call SetLastAcknowledgedPeriodOp
       (fun st =>
          let u := userData st uid in
          (tt, <[uid := mkUserData (expenses u) (categories u) (archives u) (Some pid)]> st)).

Definition getArchiveRecord (uid pid : string) : Gateway (option ArchiveRecord) :=
  call GetArchiveRecordOp
       (fun st => (List.find (forPeriod pid) (archives (userData st uid)), st)).

Definition writeArchiveRecord (uid pid : string) (snapshot : list Expense.t)
           (now : Instant) : Gateway unit :=
  call WriteArchiveRecordOp
       (fun st =>
          let u := userData st uid in
          (tt, <[uid := mkUserData (expenses u) (categories u)
                                   (archives u ++ [mkArchiveRecord pid snapshot now])
                                   (lastAcknowledged u)]> st)).

Definition removeExpenses (uid pid : string) : Gateway unit :=
  call RemoveExpensesOp
       (fun st =>
          let u := userData st uid in
          (tt, <[uid := mkUserData (List.filter (fun e => negb (datedIn pid e)) (expenses u))
                                   (categories u) (archives u) (lastAcknowledged u)]> st)).

(** Modelled from the spec: [archiveCurrentPeriod(uid)], steps 1 to 6 of
    section 4.3.  The snapshot is written only when no record exists
    for the period; the removal is attempted on both paths (step 6);
    the marker is advanced last, so any failure leaves it alone. *)
Definition archiveCurrentPeriod (uid : string) (now : Instant) : Gateway unit :=
  let* marker := getLastAcknowledgedPeriod uid in
  let currentPeriod := computePeriod now startDay in
  let previous := previousPeriodId marker currentPeriod in
  let* all := getExpenses uid in
  let snapshot := List.filter (datedIn previous) all in
  let* existing := getArchiveRecord uid previous in
  do* match existing with
      | Some _ => ret tt
      | None => writeArchiveRecord uid previous snapshot now
      end in
  do* removeExpenses uid previous in
  setLastAcknowledgedPeriod uid (id currentPeriod).

(** What a user's archive looks like once the snapshot step of
    [archiveCurrentPeriod] for period [prev] has run. *)
Definition archived (prev : string) (now : Instant) (u : UserData)
  : list ArchiveRecord :=
  match List.find (forPeriod prev) (archives u) with
  | Some _ => archives u
  | None =>
      archives u ++ [mkArchiveRecord prev (List.filter (datedIn prev) (expenses u)) now]
  end.

(** Modelled from the spec: [markPeriodAsChecked(uid)], "continue". *)
Definition markPeriodAsChecked (uid : string) (now : Instant) : Gateway unit :=
  setLastAcknowledgedPeriod uid (id (computePeriod now startDay)).

End Engine.

(** The user's answer to the rollover prompt. *)
Inductive Choice : Type := Archive | Acknowledge.

Definition perform (startDay : Z) (unavailable : GatewayOp -> bool) (c : Choice)
  : string -> Instant -> Gateway unit :=
  match c with
  | Archive => archiveCurrentPeriod startDay unavailable
  | Acknowledge => markPeriodAsChecked startDay unavailable
  end.

Definition markerOf (st : Store) (uid : string) : option string :=
  lastAcknowledged (userData st uid).

(** Modelled from the spec: the state machine of section 4.3.  A
    transition happens on rollover detection: the detector reports a new
    period for some user, who then archives or acknowledges; the store
    calls of the operation may fail. *)
Inductive transition (startDay : Z) : Store -> Store -> Prop :=
| rollover (st st' : Store) (uid : string) (now : Instant) (c : Choice)
           (unavailable : GatewayOp -> bool) (r : EngineError + unit) :
    isNew (checkForNewPeriod startDay (markerOf st uid) now) = true ->
    perform startDay unavailable c uid now st = (r, st') ->
    transition startDay st st'.

(** Any number of transitions. *)
Inductive transitions (startDay : Z) : Store -> Store -> Prop :=
| transitions_refl (st : Store) : transitions startDay st st
| transitions_step (st st' st'' : Store) :
    transition startDay st st' -> transitions startDay st' st'' ->
    transitions startDay st st''.

(** Period order on marker values: no marker comes first, ids compare as
    strings (for the years 0..9999 that is the order of the periods, see
    [keyOfIndex_compare]). *)
Definition markerLe (a b : option string) : Prop :=
  match a, b with
  | None, _ => True
  | Some _, None => False
  | Some x, Some y => String.leb x y = true
  end.

(** The archive records of a user are keyed by period id. *)
Definition archivesKeyed (st : Store) (uid : string) : Prop :=
  forall pid, (recordsFor pid (archives (userData st uid)) <= 1)%nat.





End PeriodManager.


(** ** Concrete inputs *)

Module Scenario.

(** A translation function that returns the key. *)
Definition keys (k : string) (_ : list (string * string)) : string := k.

Definition lunch : Expense.t :=
  Expense.mk "e1" "2024-06-10" "Food" (Js.Finite (25 # 2)) "lunch".

(** The form filled in with a category, an amount and a note. *)
Definition filled : DailyLog.State :=
  DailyLog.mkState [lunch] [BudgetCategory.mk "c1" "Food" (Js.Finite 300)]
                   "Food" "4.20" " coffee " "2024-06-10" false None.

(** The same form with a negative amount. *)
Definition negative : DailyLog.State :=
  DailyLog.mkState [lunch] [BudgetCategory.mk "c1" "Food" (Js.Finite 300)]
                   "Food" "-5" "" "2024-06-10" false None.

(** An operation that awaits one store call. *)
Definition oneStoreCall (_ : NewPeriodPrompt.EngineOp) : nat := 1%nat.

(** 2024-06-10 and 2024-06-03, at noon. *)
Definition june10 : MonthlyPeriod.Instant := MonthlyPeriod.mkInstant 2024 6 10 43200000.
Definition june3 : MonthlyPeriod.Instant := MonthlyPeriod.mkInstant 2024 6 3 43200000.

Definition available (_ : PeriodManager.GatewayOp) : bool := false.

Definition mayExpense : Expense.t :=
  Expense.mk "a" "2024-05-12" "Food" (Js.Finite 3) "".
Definition juneExpense : Expense.t :=
  Expense.mk "b" "2024-06-02" "Food" (Js.Finite 4) "".


(** A store whose only user last acknowledged March 2024. *)
Definition staleStore : gmap string PeriodManager.UserData :=
  {[ "u1" := PeriodManager.mkUserData [mayExpense; juneExpense] [] [] (Some "2024-03") ]}.

(** A store whose only user last acknowledged May 2024. *)
Definition store : gmap string PeriodManager.UserData :=
  {[ "u1" := PeriodManager.mkUserData [mayExpense; juneExpense] [] [] (Some "2024-05") ]}.

End Scenario.

(** * Properties *)

(** ** The expense log *)

Module DailyLogFacts.

Import DailyLog.

Lemma applyActions_app (s : State) (l1 l2 : list Action) :
  applyActions s (l1 ++ l2) = applyActions (applyActions s l1) l2.
Proof. unfold applyActions. apply fold_left_app. Qed.

(** [updatesConfirmed] says what it is meant to say: an update of the
    list is preceded by the settlement of a successful write. *)
Lemma updatesConfirmed_sound (acts : list Action) :
  forall confirmed, updatesConfirmed confirmed acts = true ->
  forall pre a post, acts = pre ++ a :: post -> setsExpenses a = true ->
    confirmed = true \/ exists u e, In (Settled (AddExpense u e) true) pre.
Proof.
  induction acts as [|x rest IH]; intros confirmed Hc pre a post Heq Ha.
  - destruct pre; discriminate.
  - destruct pre as [|p pre]; simpl in Heq; injection Heq as -> ->.
    + destruct a; try discriminate. simpl in Hc.
      apply andb_true_iff in Hc. left. tauto.
    + assert (Hrest : forall c, updatesConfirmed c (pre ++ a :: post) = true ->
                c = true \/ exists u e, In (Settled (AddExpense u e) true) pre)
        by (intros c Hcr; eapply IH; eauto).
      assert (Hweak : forall c, updatesConfirmed c (pre ++ a :: post) = true ->
                c = confirmed ->
                confirmed = true \/ exists u e, In (Settled (AddExpense u e) true) (p :: pre)).
      { intros c Hcr ->. destruct (Hrest _ Hcr) as [|(u & e & Hin)]; [now left|].
        right. exists u, e. now right. }
      destruct p as [| | | | | | | | |c|c ok]; simpl in Hc;
        try (eapply Hweak; [exact Hc | reflexivity]).
      * apply andb_true_iff in Hc. left. tauto.
      * destruct c as [u e| |]; try (eapply Hweak; [exact Hc | reflexivity]).
        destruct ok; try (eapply Hweak; [exact Hc | reflexivity]).
        right. exists u, e. now left.
Qed.

Lemma handleAddExpense_confirmed uid currency t s added reloaded :
  updatesConfirmed false (handleAddExpense uid currency t s added reloaded) = true.
Proof.
  unfold handleAddExpense.
  destruct (Js.truthy (selectedCategory s)), (Js.truthy (amount s)),
    (Js.truthy_opt uid), added, reloaded; reflexivity.
Qed.

(** The three guards of [handleAddExpense], as one case analysis. *)
Lemma handleAddExpense_cases uid currency t s added reloaded :
  let acts := handleAddExpense uid currency t s added reloaded in
  let e := NewExpense.mk (date s) (selectedCategory s)
                         (Js.parseFloat (amount s)) (Js.trim (note s)) in
  (Js.truthy (selectedCategory s) && Js.truthy (amount s) = false /\
   acts = [Toast (t "dailyLog.select_category_and_amount" []) None Destructive])
  \/ (Js.truthy (selectedCategory s) && Js.truthy (amount s) = true /\
      Js.truthy_opt uid = false /\ acts = [])
  \/ (Js.truthy (selectedCategory s) && Js.truthy (amount s) = true /\
      exists u, uid = Some u /\ Js.truthy u = true /\
      exists rest, acts = Call (AddExpense u e) :: rest /\ storeWrites rest = []).
Proof.
  unfold handleAddExpense.
  destruct (Js.truthy (selectedCategory s)), (Js.truthy (amount s)); simpl;
    try (left; split; reflexivity).
  right. destruct uid as [u|]; simpl; [|left; repeat split; reflexivity].
  destruct (Js.truthy u) eqn:Hu; simpl; [|left; repeat split; reflexivity].
  right. split; [reflexivity|]. exists u. repeat split; try assumption.
  eexists. split; [reflexivity|].
  destruct added, reloaded; reflexivity.
Qed.

(** C6, as the specification words it, fails: when the write of the
    filled form is rejected, no "pending" entry is in the list, because
    the list is only touched after the awaited write has resolved. *)
Lemma optimisticWithoutRollback_fails :
  ~ optimisticWithoutRollback (Some "u1") "$" Scenario.keys Scenario.filled
      Rejected Rejected.
Proof.
  intros H. red in H.
  destruct (H "u1" (NewExpense.mk "2024-06-10" "Food" (Js.parseFloat "4.20")
                                  (Js.trim " coffee "))) as [_ Hin].
  - left. reflexivity.
  - specialize (Hin eq_refl). vm_compute in Hin.
    destruct Hin as [Heq|[]]. discriminate Heq.
Qed.

(** C6, amended: [handleAddExpense] updates the local list only after
    the store write has been confirmed; when the write fails the state is
    left as it was and only the error toast is shown; when the write
    succeeds and the reload fails, the error toast is shown (after the
    success toast) and the "pending" entry stays in the list. *)
Theorem handleAddExpense_updates_after_confirmation
        uid currency t s added reloaded :
  let acts := handleAddExpense uid currency t s added reloaded in
  (forall pre a post, acts = pre ++ a :: post -> setsExpenses a = true ->
     exists u e, In (Settled (AddExpense u e) true) pre)
  /\ (added = Rejected -> forall cur, applyActions cur acts = cur)
  /\ (added = Rejected -> storeWrites acts <> [] ->
      toasts acts = [Toast (t "dailyLog.failed_to_add_expense" []) None Destructive])
  /\ (forall x u e, added = Resolved x -> reloaded = Rejected ->
      In (u, e) (storeWrites acts) ->
      expenses (applyActions s acts) = NewExpense.withId "pending" e :: expenses s)
  /\ (forall x, added = Resolved x -> reloaded = Rejected -> storeWrites acts <> [] ->
      toasts acts
      = [Toast (t "dailyLog.expense_logged" [])
               (Some (t "dailyLog.spent_on"
                        [("currency", currency); ("amount", amount s);
                         ("selectedCategory", selectedCategory s)]))
               Default;
         Toast (t "dailyLog.failed_to_add_expense" []) None Destructive]).
Proof.
  intros acts. split; [|split; [|split; [|split]]].
  - intros pre a post Heq Ha.
    destruct (updatesConfirmed_sound acts false
                (handleAddExpense_confirmed uid currency t s added reloaded)
                pre a post Heq Ha) as [Hf|Hex]; [discriminate | exact Hex].
  - intros -> cur. subst acts. unfold handleAddExpense.
    destruct (Js.truthy (selectedCategory s)), (Js.truthy (amount s)),
      (Js.truthy_opt uid); reflexivity.
  - intros -> Hw. subst acts. revert Hw. unfold handleAddExpense.
    destruct (Js.truthy (selectedCategory s)), (Js.truthy (amount s)),
      (Js.truthy_opt uid); simpl; intros Hw; try congruence; reflexivity.
  - intros x u e -> ->. subst acts. unfold handleAddExpense.
    destruct (Js.truthy (selectedCategory s)), (Js.truthy (amount s)),
      (Js.truthy_opt uid); simpl; intros Hin; try contradiction.
    destruct Hin as [Heq|[]]. injection Heq as _ <-. reflexivity.
  - intros x -> -> Hw. subst acts. revert Hw. unfold handleAddExpense.
    destruct (Js.truthy (selectedCategory s)), (Js.truthy (amount s)),
      (Js.truthy_opt uid); simpl; intros Hw; try congruence; reflexivity.
Qed.

(** C7, as the specification words it, fails: the amount "-5" passes the
    two emptiness tests and is written to the store as -5. *)
Lemma amountsValidated_fails :
  ~ amountsValidated (Some "u1") "$" Scenario.keys Scenario.negative
      (Resolved tt) (Resolved []).
Proof.
  intros H. red in H.
  specialize (H "u1" (NewExpense.mk "2024-06-10" "Food" (Js.Finite (-5 # 1)) "")
                (or_introl eq_refl)).
  vm_compute in H. discriminate H.
Qed.

(** C7, amended: [handleAddExpense] rejects, with the validation toast
    and without a store write, exactly the inputs whose category or
    amount string is empty; every other input of a signed-in user is
    written with the amount [parseFloat] reads from the string, whatever
    its sign. *)
Theorem handleAddExpense_writes_parsed_amount uid currency t s added reloaded :
  let acts := handleAddExpense uid currency t s added reloaded in
  storeWrites acts =
    (if Js.truthy (selectedCategory s) && Js.truthy (amount s) && Js.truthy_opt uid
     then [(default "" uid,
            NewExpense.mk (date s) (selectedCategory s)
                          (Js.parseFloat (amount s)) (Js.trim (note s)))]
     else [])
  /\ (acts = [Toast (t "dailyLog.select_category_and_amount" []) None Destructive]
      <-> Js.truthy (selectedCategory s) && Js.truthy (amount s) = false).
Proof.
  intros acts.
  destruct (handleAddExpense_cases uid currency t s added reloaded)
    as [[Hg Ha] | [(Hg & Hu & Ha) | (Hg & u & -> & Hu & rest & Ha & Hr)]];
    fold acts in Ha; rewrite Ha, Hg; simpl.
  - split; [reflexivity | tauto].
  - rewrite Hu. split; [reflexivity|]. split; [discriminate | discriminate].
  - rewrite Hu, Hr. split; [reflexivity|]. split; [discriminate | discriminate].
Qed.

(** C8: when the read of the expenses or of the categories fails, the
    component renders the error view with the load-failure message, and
    no expense list, whatever the state held before (the message being a
    non-empty string). *)
Theorem loadData_failure_renders_error uid t es cs :
  Js.truthy_opt uid = true ->
  es = Rejected \/ cs = Rejected ->
  Js.truthy (t "dailyLog.failed_to_load_data" []) = true ->
  forall s,
    render t (applyActions s (loadData uid t es cs))
      = ErrorView (t "dailyLog.failed_to_load_data" [])
    /\ render t (applyActions s (loadSettle t es cs))
      = ErrorView (t "dailyLog.failed_to_load_data" []).
Proof.
  intros Hu Hfail Ht s.
  assert (Hsettle : forall cur, render t (applyActions cur (loadSettle t es cs))
                      = ErrorView (t "dailyLog.failed_to_load_data" [])).
  { intros cur. unfold loadSettle, render.
    destruct Hfail as [-> | ->]; [|destruct es]; simpl; rewrite Ht; reflexivity. }
  split; [|apply Hsettle].
  unfold loadData. rewrite Hu. cbn [negb].
  rewrite applyActions_app. apply Hsettle.
Qed.

Lemma loadData_failure_renders_error_witness :
  render Scenario.keys
         (applyActions Scenario.filled
            (loadData (Some "u1") Scenario.keys Rejected (Resolved [])))
  = ErrorView "dailyLog.failed_to_load_data".
Proof.
  apply (loadData_failure_renders_error (Some "u1") Scenario.keys Rejected (Resolved [])
           eq_refl (or_introl eq_refl) eq_refl Scenario.filled).
Defined.

(** C9: once the write is attempted, a successful write clears the
    category, the amount and the note and leaves the date alone; a
    failed write leaves the whole state (the four form fields and the
    expense list) as it was and shows only the error toast. *)
Theorem handleAddExpense_form_fields uid currency t s added reloaded :
  Js.truthy (selectedCategory s) = true ->
  Js.truthy (amount s) = true ->
  Js.truthy_opt uid = true ->
  let acts := handleAddExpense uid currency t s added reloaded in
  forall cur,
    (forall x, added = Resolved x ->
       selectedCategory (applyActions cur acts) = ""
       /\ amount (applyActions cur acts) = ""
       /\ note (applyActions cur acts) = ""
       /\ date (applyActions cur acts) = date cur)
    /\ (added = Rejected ->
        applyActions cur acts = cur
        /\ toasts acts = [Toast (t "dailyLog.failed_to_add_expense" []) None Destructive]).
Proof.
  intros Hc Ha Hu acts cur. subst acts. unfold handleAddExpense.
  rewrite Hc, Ha, Hu. simpl. split.
  - intros x ->. destruct reloaded; simpl; repeat split; reflexivity.
  - intros ->. split; reflexivity.
Qed.

Lemma handleAddExpense_form_fields_witness :
  let acts := handleAddExpense (Some "u1") "$" Scenario.keys Scenario.filled
                               (Resolved tt) Rejected in
  selectedCategory (applyActions Scenario.filled acts) = ""
  /\ amount (applyActions Scenario.filled acts) = ""
  /\ note (applyActions Scenario.filled acts) = ""
  /\ date (applyActions Scenario.filled acts) = "2024-06-10".
Proof.
  exact (proj1 (handleAddExpense_form_fields (Some "u1") "$" Scenario.keys
                  Scenario.filled (Resolved tt) Rejected eq_refl eq_refl eq_refl
                  Scenario.filled) tt eq_refl).
Defined.

(** C10: without a user identifier, [handleAddExpense] on a form with a
    category and an amount does nothing: no store write, no toast, no
    change of state. *)
Theorem handleAddExpense_without_uid uid currency t s added reloaded :
  Js.truthy_opt uid = false ->
  Js.truthy (selectedCategory s) = true ->
  Js.truthy (amount s) = true ->
  let acts := handleAddExpense uid currency t s added reloaded in
  acts = []
  /\ storeWrites acts = []
  /\ toasts acts = []
  /\ forall cur, applyActions cur acts = cur.
Proof.
  intros Hu Hc Ha acts. subst acts. unfold handleAddExpense.
  rewrite Hu, Hc, Ha. simpl. repeat split; reflexivity.
Qed.

Lemma handleAddExpense_without_uid_witness :
  handleAddExpense None "$" Scenario.keys Scenario.filled (Resolved tt) (Resolved []) = [].
Proof.
  exact (proj1 (handleAddExpense_without_uid None "$" Scenario.keys Scenario.filled
                  (Resolved tt) (Resolved []) eq_refl eq_refl eq_refl)).
Defined.

End DailyLogFacts.

(** ** The rollover prompt *)

Module NewPeriodPromptFacts.

Import NewPeriodPrompt.

(** The trace of a click on "Archive & Start New Period" when the
    operation suspends at least once: the prompt is closed while the
    operation is still pending. *)
Lemma click_handleArchiveAndStart_pending awaits n :
  awaits ArchiveCurrentPeriod = S n ->
  click (handleArchiveAndStart awaits)
  = [ Invoked ArchiveCurrentPeriod;
      ToastShown "New period started! 🎉"
                 "Previous expenses have been archived and your budget is ready for the new month.";
      Closed;
      Completed ArchiveCurrentPeriod ].
Proof.
  intros H. unfold click, handleArchiveAndStart, callWithoutAwait.
  rewrite H. reflexivity.
Qed.

Lemma click_handleContinue_pending awaits n :
  awaits MarkPeriodAsChecked = S n ->
  click (handleContinue awaits)
  = [Invoked MarkPeriodAsChecked; Closed; Completed MarkPeriodAsChecked].
Proof.
  intros H. unfold click, handleContinue, callWithoutAwait.
  rewrite H. reflexivity.
Qed.

(** Only an operation that never suspends is complete when the prompt
    closes. *)
Lemma click_handleContinue_synchronous awaits :
  awaits MarkPeriodAsChecked = O ->
  closesAfterCompletion MarkPeriodAsChecked (click (handleContinue awaits)).
Proof.
  intros H. unfold click, handleContinue, callWithoutAwait. rewrite H.
  split; [simpl; tauto|].
  intros (l1 & l2 & l3 & Heq). cbn in Heq.
  destruct l1 as [|? [|? [|? l1]]]; simpl in Heq; try discriminate;
    injection Heq as ? ?; subst; try discriminate.
  - destruct l2; discriminate.
  - destruct l1; discriminate.
Qed.

(** Whenever the operation suspends, neither handler closes the prompt
    after its completion. *)
Lemma handlers_close_while_pending awaits :
  (awaits ArchiveCurrentPeriod <> O ->
   ~ closesAfterCompletion ArchiveCurrentPeriod (click (handleArchiveAndStart awaits)))
  /\ (awaits MarkPeriodAsChecked <> O ->
      ~ closesAfterCompletion MarkPeriodAsChecked (click (handleContinue awaits))).
Proof.
  split; intros Hn [_ Hnot]; apply Hnot.
  - destruct (awaits ArchiveCurrentPeriod) as [|n] eqn:E; [contradiction|].
    rewrite (click_handleArchiveAndStart_pending awaits n E).
    exists [Invoked ArchiveCurrentPeriod;
            ToastShown "New period started! 🎉"
              "Previous expenses have been archived and your budget is ready for the new month."],
      [], []. reflexivity.
  - destruct (awaits MarkPeriodAsChecked) as [|n] eqn:E; [contradiction|].
    rewrite (click_handleContinue_pending awaits n E).
    exists [Invoked MarkPeriodAsChecked], [], []. reflexivity.
Qed.

(** C5 on the code: with an operation that awaits one store call, both
    handlers invoke [onClose] before the operation has completed. *)
Theorem prompt_closes_before_completion :
  precedes Closed (Completed ArchiveCurrentPeriod)
           (click (handleArchiveAndStart Scenario.oneStoreCall))
  /\ ~ closesAfterCompletion ArchiveCurrentPeriod
         (click (handleArchiveAndStart Scenario.oneStoreCall))
  /\ precedes Closed (Completed MarkPeriodAsChecked)
              (click (handleContinue Scenario.oneStoreCall))
  /\ ~ closesAfterCompletion MarkPeriodAsChecked
         (click (handleContinue Scenario.oneStoreCall)).
Proof.
  assert (H1 : precedes Closed (Completed ArchiveCurrentPeriod)
           (click (handleArchiveAndStart Scenario.oneStoreCall))).
  { rewrite (click_handleArchiveAndStart_pending _ O eq_refl).
    exists [Invoked ArchiveCurrentPeriod;
            ToastShown "New period started! 🎉"
              "Previous expenses have been archived and your budget is ready for the new month."],
      [], []. reflexivity. }
  assert (H2 : precedes Closed (Completed MarkPeriodAsChecked)
           (click (handleContinue Scenario.oneStoreCall))).
  { rewrite (click_handleContinue_pending _ O eq_refl).
    exists [Invoked MarkPeriodAsChecked], [], []. reflexivity. }
  repeat split; try assumption; intros [_ Hn]; contradiction.
Qed.

End NewPeriodPromptFacts.

(** ** The order of strings *)

Module StringOrder.

Lemma string_compare_refl (a : string) : String.compare a a = Eq.
Proof.
  induction a as [|c a IH]; simpl; [reflexivity|].
  unfold Ascii.compare. now rewrite N.compare_refl.
Qed.

(** Strings that start with prefixes of one length compare by the
    prefixes first. *)
Lemma string_compare_app (a b s t : string) :
  String.length a = String.length b ->
  String.compare (a ++ s) (b ++ t)
  = match String.compare a b with
    | Eq => String.compare s t
    | c => c
    end.
Proof.
  revert b. induction a as [|x a IH]; intros [|y b] Hlen; simpl in *; try discriminate.
  - reflexivity.
  - destruct (Ascii.compare x y); try reflexivity.
    apply IH. now injection Hlen.
Qed.

Lemma string_length_app (a b : string) :
  String.length (a ++ b) = (String.length a + String.length b)%nat.
Proof. induction a as [|c a IH]; simpl; [reflexivity | now rewrite IH]. Qed.

Lemma string_leb_refl (a : string) : String.leb a a = true.
Proof. unfold String.leb. now rewrite string_compare_refl. Qed.

Lemma string_compare_lt_trans (a : string) :
  forall b c, String.compare a b = Lt -> String.compare b c = Lt ->
              String.compare a c = Lt.
Proof.
  induction a as [|x a IH]; intros [|y b] [|z c]; simpl; try congruence.
  unfold Ascii.compare.
  destruct (N.compare_spec (N_of_ascii x) (N_of_ascii y)) as [Hxy|Hxy|Hxy];
    destruct (N.compare_spec (N_of_ascii y) (N_of_ascii z)) as [Hyz|Hyz|Hyz];
    destruct (N.compare_spec (N_of_ascii x) (N_of_ascii z)) as [Hxz|Hxz|Hxz];
    try congruence; try lia; intros; eauto.
Qed.

Lemma string_leb_lt (a b : string) :
  String.leb a b = true <-> a = b \/ String.compare a b = Lt.
Proof.
  unfold String.leb. split.
  - destruct (String.compare a b) eqn:E; try discriminate; intros _.
    + left. now apply String.compare_eq_iff.
    + now right.
  - intros [-> | ->]; [now rewrite string_compare_refl | reflexivity].
Qed.

Lemma string_leb_trans (a b c : string) :
  String.leb a b = true -> String.leb b c = true -> String.leb a c = true.
Proof.
  rewrite !string_leb_lt. intros [-> | Hab] [-> | Hbc]; auto.
  right. eapply string_compare_lt_trans; eauto.
Qed.

End StringOrder.

(** ** The period calculator *)

Module MonthlyPeriodFacts.

Import MonthlyPeriod StringOrder.
Local Open Scope Z_scope.

Lemma yearOfIndex_monthIndex y m :
  1 <= m <= 12 -> yearOfIndex (monthIndex y m) = y.
Proof.
  intros Hm. unfold yearOfIndex, monthIndex.
  symmetry. apply (Z.div_unique _ _ _ (m - 1)); lia.
Qed.

Lemma monthOfIndex_monthIndex y m :
  1 <= m <= 12 -> monthOfIndex (monthIndex y m) = m.
Proof.
  intros Hm. unfold monthOfIndex, monthIndex.
  replace ((y * 12 + (m - 1)) mod 12) with (m - 1); [lia|].
  apply (Z.mod_unique _ _ y); lia.
Qed.

(** Month arithmetic on the index agrees with the calendar: the index
    after (before) that of a month is the index of the next (previous)
    calendar month. *)
Lemma monthIndex_next y m :
  1 <= m <= 12 ->
  monthIndex y m + 1 = monthIndex (fst (nextMonth (y, m))) (snd (nextMonth (y, m)))
  /\ 1 <= snd (nextMonth (y, m)) <= 12.
Proof.
  intros Hm. unfold nextMonth, monthIndex.
  destruct (Z.eqb_spec m 12); simpl; lia.
Qed.

Lemma monthIndex_prev y m :
  1 <= m <= 12 ->
  monthIndex y m - 1 = monthIndex (fst (prevMonth (y, m))) (snd (prevMonth (y, m)))
  /\ 1 <= snd (prevMonth (y, m)) <= 12.
Proof.
  intros Hm. unfold prevMonth, monthIndex.
  destruct (Z.eqb_spec m 1); simpl; lia.
Qed.

Lemma boundary_monthIndex y m d :
  1 <= m <= 12 -> boundary (monthIndex y m) d = midnight y m d.
Proof.
  intros Hm. unfold boundary.
  now rewrite yearOfIndex_monthIndex, monthOfIndex_monthIndex.
Qed.

Lemma clampStartDay_id d : d <= 28 -> clampStartDay d = d.
Proof. unfold clampStartDay. lia. Qed.

(** The two cases of [computePeriod], on the calendar. *)
Lemma computePeriod_cases now startDay :
  1 <= startDay <= 28 ->
  1 <= month now <= 12 ->
  (startDay <= day now ->
   start (computePeriod now startDay) = startDayOf (year now, month now) startDay
   /\ end_ (computePeriod now startDay)
      = startDayOf (nextMonth (year now, month now)) startDay)
  /\ (day now < startDay ->
      start (computePeriod now startDay)
      = startDayOf (prevMonth (year now, month now)) startDay
      /\ end_ (computePeriod now startDay) = startDayOf (year now, month now) startDay).
Proof.
  intros Hd Hm.
  unfold computePeriod, startIndex. rewrite clampStartDay_id by lia.
  destruct (monthIndex_next (year now) (month now) Hm) as [Hn Hn'].
  destruct (monthIndex_prev (year now) (month now) Hm) as [Hp Hp'].
  split; intros Hday.
  - destruct (Z.leb_spec startDay (day now)); [|lia].
    unfold periodAt; cbn [start end_]. rewrite Hn.
    rewrite !boundary_monthIndex by assumption.
    unfold startDayOf. simpl. split; reflexivity.
  - destruct (Z.leb_spec startDay (day now)); [lia|].
    unfold periodAt; cbn [start end_].
    replace (monthIndex (year now) (month now) - 1 + 1)
      with (monthIndex (year now) (month now)) by lia.
    rewrite Hp. rewrite !boundary_monthIndex by assumption.
    unfold startDayOf. simpl. split; reflexivity.
Qed.

(** C2: for a start day in 1..28, [computePeriod] returns the period from
    this month's start day to next month's when the day of month of
    [now] has reached the start day, and otherwise the period from the
    previous month's start day to this month's, each boundary at local
    midnight; with start day 15 on 2024-06-10 the period is
    2024-05-15..2024-06-15. *)
Theorem computePeriod_boundaries :
  (forall now startDay,
      1 <= startDay <= 28 ->
      1 <= month now <= 12 ->
      let thisMonth := (year now, month now) in
      let p := computePeriod now startDay in
      (startDay <= day now ->
       start p = startDayOf thisMonth startDay
       /\ end_ p = startDayOf (nextMonth thisMonth) startDay)
      /\ (day now < startDay ->
          start p = startDayOf (prevMonth thisMonth) startDay
          /\ end_ p = startDayOf thisMonth startDay))
  /\ start (computePeriod Scenario.june10 15) = midnight 2024 5 15
  /\ end_ (computePeriod Scenario.june10 15) = midnight 2024 6 15.
Proof.
  split; [|split; reflexivity].
  intros now startDay Hd Hm thisMonth p. subst thisMonth p.
  exact (computePeriod_cases now startDay Hd Hm).
Qed.

Lemma computePeriod_boundaries_witness :
  start (computePeriod Scenario.june10 15) = startDayOf (prevMonth (2024, 6)) 15
  /\ end_ (computePeriod Scenario.june10 15) = startDayOf (2024, 6) 15.
Proof.
  apply (proj1 computePeriod_boundaries Scenario.june10 15); simpl; lia.
Defined.

(** The period that is computed for an instant contains it, and starts
    before it ends. *)
Lemma computePeriod_contains now startDay :
  1 <= startDay <= 28 -> 1 <= month now <= 12 -> 0 <= timeOfDay now ->
  let p := computePeriod now startDay in
  compareInstant (start p) now <> Gt
  /\ compareInstant now (end_ p) = Lt
  /\ compareInstant (start p) (end_ p) = Lt.
Proof.
  intros Hd Hm Ht p.
  destruct (computePeriod_cases now startDay Hd Hm) as [Hge Hlt].
  fold p in Hge, Hlt.
  destruct (Z_le_gt_dec startDay (day now)) as [Hday|Hday].
  - destruct (Hge Hday) as [-> ->].
    unfold compareInstant, startDayOf, nextMonth, midnight; cbn [year month day timeOfDay fst snd].
    destruct (Z.eqb_spec (month now) 12); cbn [year month day timeOfDay fst snd];
      rewrite ?Z.compare_refl;
      repeat match goal with
             | |- context [(?a ?= ?b)] => destruct (Z.compare_spec a b); try lia
             end; repeat split; congruence.
  - destruct (Hlt ltac:(lia)) as [-> ->].
    unfold compareInstant, startDayOf, prevMonth, midnight; cbn [year month day timeOfDay fst snd].
    destruct (Z.eqb_spec (month now) 1); cbn [year month day timeOfDay fst snd];
      rewrite ?Z.compare_refl;
      repeat match goal with
             | |- context [(?a ?= ?b)] => destruct (Z.compare_spec a b); try lia
             end; repeat split; congruence.
Qed.

(** *** Period keys are ordered as the periods are *)

Lemma padded_length w n : String.length (padded w n) = w.
Proof.
  revert n. induction w as [|w IH]; intros n; simpl; [reflexivity|].
  rewrite string_length_app, IH. simpl. lia.
Qed.

Lemma digitChar_compare a b :
  0 <= a < 10 -> 0 <= b < 10 ->
  Ascii.compare (digitChar a) (digitChar b) = (a ?= b).
Proof.
  intros Ha Hb.
  assert (Hcases : forall x, 0 <= x < 10 ->
            x = 0 \/ x = 1 \/ x = 2 \/ x = 3 \/ x = 4 \/ x = 5 \/ x = 6 \/ x = 7
            \/ x = 8 \/ x = 9) by (intros; lia).
  destruct (Hcases a Ha) as [->|[->|[->|[->|[->|[->|[->|[->|[->| ->]]]]]]]]];
    destruct (Hcases b Hb) as [->|[->|[->|[->|[->|[->|[->|[->|[->| ->]]]]]]]]];
    reflexivity.
Qed.

(** Zero-padded numbers of one width compare as the numbers do. *)
Lemma padded_compare w :
  forall n1 n2, 0 <= n1 < 10 ^ Z.of_nat w -> 0 <= n2 < 10 ^ Z.of_nat w ->
  String.compare (padded w n1) (padded w n2) = (n1 ?= n2).
Proof.
  induction w as [|w IH]; intros n1 n2 H1 H2.
  - simpl in *. replace n1 with 0 by lia. replace n2 with 0 by lia. reflexivity.
  - rewrite Nat2Z.inj_succ, Z.pow_succ_r in H1, H2 by lia.
    cbn [padded].
    rewrite string_compare_app by now rewrite !padded_length.
    rewrite IH by (split; [apply Z.div_pos; lia | apply Z.div_lt_upper_bound; lia]).
    pose proof (Z.div_mod n1 10 ltac:(lia)) as E1.
    pose proof (Z.div_mod n2 10 ltac:(lia)) as E2.
    pose proof (Z.mod_pos_bound n1 10 ltac:(lia)) as B1.
    pose proof (Z.mod_pos_bound n2 10 ltac:(lia)) as B2.
    cbn [String.compare]. rewrite digitChar_compare by assumption.
    destruct (Z.compare_spec (n1 / 10) (n2 / 10)) as [Hq|Hq|Hq];
      destruct (Z.compare_spec (n1 mod 10) (n2 mod 10)) as [Hr|Hr|Hr];
      symmetry;
      first [ apply Z.compare_eq_iff | apply Z.compare_lt_iff | apply Z.compare_gt_iff ];
      lia.
Qed.

Lemma periodKey_compare y1 m1 y2 m2 :
  0 <= y1 < 10000 -> 0 <= y2 < 10000 -> 1 <= m1 <= 12 -> 1 <= m2 <= 12 ->
  String.compare (periodKey y1 m1) (periodKey y2 m2)
  = (monthIndex y1 m1 ?= monthIndex y2 m2).
Proof.
  intros Hy1 Hy2 Hm1 Hm2. unfold periodKey, monthIndex.
  rewrite string_compare_app by now rewrite !padded_length.
  rewrite (padded_compare 4) by (simpl; lia).
  rewrite (string_compare_app "-" "-") by reflexivity.
  change (String.compare "-" "-") with Eq. cbv iota.
  rewrite (padded_compare 2) by (simpl; lia).
  destruct (Z.compare_spec y1 y2) as [Hy|Hy|Hy];
    destruct (Z.compare_spec m1 m2) as [Hm|Hm|Hm];
    symmetry;
    first [ apply Z.compare_eq_iff | apply Z.compare_lt_iff | apply Z.compare_gt_iff ];
    lia.
Qed.

(** For the months of the years 0..9999, the keys are ordered as the
    months are. *)
Lemma keyOfIndex_compare i j :
  0 <= i < 120000 -> 0 <= j < 120000 ->
  String.compare (keyOfIndex i) (keyOfIndex j) = (i ?= j).
Proof.
  intros Hi Hj. unfold keyOfIndex, yearOfIndex, monthOfIndex.
  pose proof (Z.div_mod i 12 ltac:(lia)) as Ei.
  pose proof (Z.div_mod j 12 ltac:(lia)) as Ej.
  pose proof (Z.mod_pos_bound i 12 ltac:(lia)) as Bi.
  pose proof (Z.mod_pos_bound j 12 ltac:(lia)) as Bj.
  rewrite periodKey_compare by lia.
  unfold monthIndex. f_equal; lia.
Qed.

(** The period of a later instant does not start in an earlier month. *)
Lemma startIndex_monotone now1 now2 startDay :
  1 <= month now1 <= 12 -> 1 <= month now2 <= 12 ->
  compareInstant now1 now2 <> Gt ->
  startIndex now1 startDay <= startIndex now2 startDay.
Proof.
  intros Hm1 Hm2. unfold compareInstant, startIndex, monthIndex.
  destruct (Z.compare_spec (year now1) (year now2));
    destruct (Z.compare_spec (month now1) (month now2));
    destruct (Z.compare_spec (day now1) (day now2));
    destruct (Z.leb_spec (clampStartDay startDay) (day now1));
    destruct (Z.leb_spec (clampStartDay startDay) (day now2));
    intros Hc; try lia; congruence.
Qed.

(** The id of the period of a later instant is not smaller, for the
    instants of the years 1..9999. *)
Lemma computePeriod_id_monotone now1 now2 startDay :
  1 <= year now1 <= 9999 -> 1 <= year now2 <= 9999 ->
  1 <= month now1 <= 12 -> 1 <= month now2 <= 12 ->
  compareInstant now1 now2 <> Gt ->
  String.leb (id (computePeriod now1 startDay)) (id (computePeriod now2 startDay)) = true.
Proof.
  intros Hy1 Hy2 Hm1 Hm2 Hc.
  pose proof (startIndex_monotone now1 now2 startDay Hm1 Hm2 Hc) as Hle.
  unfold computePeriod, periodAt. cbn [id]. unfold String.leb.
  assert (Hr : forall now, 1 <= year now <= 9999 -> 1 <= month now <= 12 ->
                 0 <= startIndex now startDay < 120000).
  { intros now Hy Hm. unfold startIndex, monthIndex.
    destruct (clampStartDay startDay <=? day now); lia. }
  rewrite keyOfIndex_compare by auto.
  destruct (Z.compare_spec (startIndex now1 startDay) (startIndex now2 startDay));
    [reflexivity | reflexivity | lia].
Qed.

End MonthlyPeriodFacts.

(** ** The period detector and the archive manager *)

Module PeriodManagerFacts.

Import MonthlyPeriod PeriodManager StringOrder.

(** *** The order on markers *)

Lemma stringGt_false_leb (a b : string) :
  stringGt a b = false <-> String.leb a b = true.
Proof.
  unfold stringGt, String.leb. destruct (String.compare a b); split; congruence.
Qed.

Lemma markerLe_refl (a : option string) : markerLe a a.
Proof. destruct a; simpl; [apply string_leb_refl | exact I]. Qed.

Lemma markerLe_trans (a b c : option string) :
  markerLe a b -> markerLe b c -> markerLe a c.
Proof.
  destruct a as [x|], b as [y|], c as [z|]; simpl; try tauto.
  apply string_leb_trans.
Qed.

(** *** The detector *)

(** C3: [checkForNewPeriod] reports the current period, and a new period
    exactly when the marker is null or differs from the current id,
    unless the marker is greater than the current id, which is never
    new. *)
Theorem checkForNewPeriod_isNew startDay lastAcknowledged now :
  let r := checkForNewPeriod startDay lastAcknowledged now in
  currentPeriod r = computePeriod now startDay
  /\ (isNew r = true <->
      (lastAcknowledged = None \/ lastAcknowledged <> Some (id (currentPeriod r)))
      /\ ~ (exists m, lastAcknowledged = Some m
                      /\ String.compare m (id (currentPeriod r)) = Gt)).
Proof.
  intros r. subst r. unfold checkForNewPeriod. cbn [isNew currentPeriod].
  split; [reflexivity|].
  generalize (id (computePeriod now startDay)). intros cur.
  destruct lastAcknowledged as [m|].
  - unfold stringGt.
    destruct (String.compare m cur) eqn:Hc.
    + apply String.compare_eq_iff in Hc. subst m. rewrite String.eqb_refl.
      cbn [negb].
      split; [discriminate|]. intros [[H|H] _]; congruence.
    + destruct (String.eqb_spec m cur) as [->|Hne].
      * rewrite string_compare_refl in Hc. discriminate.
      * cbn [negb]. split; [|reflexivity]. intros _. split.
        -- right. congruence.
        -- intros (m' & Hm & Hgt). injection Hm as <-. congruence.
    + split; [discriminate|]. intros [_ Hn]. exfalso. apply Hn. eauto.
  - split; [|reflexivity]. intros _. split; [now left|].
    intros (m & Hm & _). discriminate.
Qed.

(** The scenario of the specification: start day 1, marker "2024-05",
    now 2024-06-03. *)
Example checkForNewPeriod_scenario :
  let r := checkForNewPeriod 1 (Some "2024-05") Scenario.june3 in
  isNew r = true /\ id (currentPeriod r) = "2024-06".
Proof. split; reflexivity. Qed.

(** *** The store *)

Lemma userData_insert_eq (st : Store) uid u : userData (<[uid := u]> st) uid = u.
Proof. unfold userData. now rewrite lookup_insert_eq. Qed.

Lemma userData_insert_ne (st : Store) uid uid' u :
  uid <> uid' -> userData (<[uid := u]> st) uid' = userData st uid'.
Proof. intros H. unfold userData. now rewrite lookup_insert_ne. Qed.

(** The effect of one run of [archiveCurrentPeriod], whatever fails: the
    archive is untouched or holds the snapshot; a successful run leaves
    exactly the archived, cleared and advanced user data; a failed run
    leaves the marker alone; other users are not touched. *)
Lemma archiveCurrentPeriod_effect startDay unavailable uid now (st st' : Store) r :
  archiveCurrentPeriod startDay unavailable uid now st = (r, st') ->
  let u := userData st uid in
  let cur := computePeriod now startDay in
  let prev := previousPeriodId (lastAcknowledged u) cur in
  (archives (userData st' uid) = archives u
   \/ archives (userData st' uid) = archived startDay prev now u)
  /\ match r with
     | inr _ =>
         userData st' uid
         = mkUserData (List.filter (fun e => negb (datedIn startDay prev e)) (expenses u))
                      (categories u) (archived startDay prev now u) (Some (id cur))
     | inl _ => lastAcknowledged (userData st' uid) = lastAcknowledged u
     end
  /\ (forall uid', uid' <> uid -> st' !! uid' = st !! uid').
Proof.
  intros H u cur prev.
  unfold archiveCurrentPeriod, bind, getLastAcknowledgedPeriod, getExpenses,
    getArchiveRecord, writeArchiveRecord, removeExpenses, setLastAcknowledgedPeriod,
    call, ret in H.
  subst u cur prev. unfold archived.
  repeat match type of H with
         | context [if unavailable ?o then _ else _] =>
             destruct (unavailable o); cbv beta iota zeta in H
         | context [List.find ?f ?l] =>
             destruct (List.find f l) eqn:?; cbv beta iota zeta in H
         end.
  all: injection H as <- <-.
  all: rewrite ?userData_insert_eq in *.
  all: cbn [expenses categories archives lastAcknowledged].
  all: repeat match goal with
              | E : List.find _ _ = _ |- _ => rewrite E; clear E
              end.
  all: repeat split; auto.
  all: intros uid' Hne; rewrite ?lookup_insert_ne by congruence; reflexivity.
Qed.

(** *** Archive records by period *)

Lemma recordsFor_app pid (l l' : list ArchiveRecord) :
  recordsFor pid (l ++ l') = (recordsFor pid l + recordsFor pid l')%nat.
Proof. unfold recordsFor. now rewrite List.filter_app, List.length_app. Qed.

Lemma recordsFor_single pid (r : ArchiveRecord) :
  recordsFor pid [r] = if String.eqb (periodId r) pid then 1%nat else 0%nat.
Proof. unfold recordsFor, forPeriod. simpl. now destruct (String.eqb (periodId r) pid). Qed.

Lemma find_None_recordsFor pid (l : list ArchiveRecord) :
  List.find (forPeriod pid) l = None -> recordsFor pid l = 0%nat.
Proof.
  unfold recordsFor. induction l as [|r l IH]; simpl; [reflexivity|].
  destruct (forPeriod pid r); [discriminate | exact IH].
Qed.



(** The snapshot step never adds a second record for a period. *)
Lemma archived_recordsFor startDay prev now u pid :
  (recordsFor pid (archives u) <= 1)%nat ->
  (recordsFor pid (archived startDay prev now u) <= 1)%nat
  /\ (recordsFor pid (archives u) <= recordsFor pid (archived startDay prev now u))%nat.
Proof.
  intros Hle. unfold archived.
  destruct (List.find (forPeriod prev) (archives u)) eqn:E; [lia|].
  rewrite recordsFor_app, recordsFor_single. cbn [periodId].
  destruct (String.eqb_spec prev pid) as [->|Hne].
  - rewrite (find_None_recordsFor _ _ E). lia.
  - lia.
Qed.




(** Every store satisfies the keying invariant again after an archive
    run, whether it succeeded or failed. *)
Lemma archiveCurrentPeriod_keyed startDay unavailable uid now (st st' : Store) r :
  archiveCurrentPeriod startDay unavailable uid now st = (r, st') ->
  archivesKeyed st uid -> archivesKeyed st' uid.
Proof.
  intros H Hk pid.
  destruct (archiveCurrentPeriod_effect _ _ _ _ _ _ _ H) as ([-> | ->] & _ & _).
  - apply Hk.
  - apply archived_recordsFor, Hk.
Qed.

(** The archive scenario of the specification, on a store with one
    expense of May and one of June: the snapshot holds the May expense,
    the working set keeps the June expense, the marker is advanced. *)
Example archiveCurrentPeriod_scenario :
  let '(r, st) := archiveCurrentPeriod 1 Scenario.available "u1" Scenario.june3
                                       Scenario.store in
  r = inr tt
  /\ map snapshotOf (archives (userData st "u1")) = [[Scenario.mayExpense]]
  /\ expenses (userData st "u1") = [Scenario.juneExpense]
  /\ markerOf st "u1" = Some "2024-06".
Proof. vm_compute. repeat split; reflexivity. Qed.

(** A failed archive write reports the failure, and leaves the working
    set and the marker alone. *)
Example archiveCurrentPeriod_write_fails :
  let unavailable o := match o with WriteArchiveRecordOp => true | _ => false end in
  let '(r, st) := archiveCurrentPeriod 1 unavailable "u1" Scenario.june3 Scenario.store in
  r = inl StoreUnavailable /\ st = Scenario.store.
Proof. vm_compute. split; reflexivity. Qed.

(** *** Idempotence of the archive *)


(** The two calls of that input, spelled out: both succeed; the first
    leaves one record, for "2024-03", the second adds one for "2024-05"
    and takes the May expense out of the working set. *)
Example staleStore_second_call_archives :
  let first := archiveCurrentPeriod 1 Scenario.available "u1" Scenario.june3
                                    Scenario.staleStore in
  let second := archiveCurrentPeriod 1 Scenario.available "u1" Scenario.june10
                                     (snd first) in
  fst first = inr tt /\ fst second = inr tt
  /\ map periodId (archives (userData (snd first) "u1")) = ["2024-03"]
  /\ map periodId (archives (userData (snd second) "u1")) = ["2024-03"; "2024-05"]
  /\ expenses (userData (snd first) "u1") = [Scenario.mayExpense; Scenario.juneExpense]
  /\ expenses (userData (snd second) "u1") = [Scenario.juneExpense].
Proof. vm_compute. repeat split; reflexivity. Qed.



(** *** Monotonicity of the marker *)

Lemma markPeriodAsChecked_effect startDay unavailable uid now (st st' : Store) r :
  markPeriodAsChecked startDay unavailable uid now st = (r, st') ->
  match r with
  | inr _ => lastAcknowledged (userData st' uid) = Some (id (computePeriod now startDay))
  | inl _ => st' = st
  end
  /\ forall uid', uid' <> uid -> st' !! uid' = st !! uid'.
Proof.
  unfold markPeriodAsChecked, setLastAcknowledgedPeriod, call.
  destruct (unavailable SetLastAcknowledgedPeriodOp); intros H; injection H as <- <-.
  - split; [reflexivity | auto].
  - rewrite userData_insert_eq. split; [reflexivity|].
    intros uid' Hne. now rewrite lookup_insert_ne by congruence.
Qed.

(** An operation of user [uid] either leaves the marker of a user alone
    or sets the marker of [uid] to the current period id. *)
Lemma perform_marker startDay unavailable c uid now (st st' : Store) r uid' :
  perform startDay unavailable c uid now st = (r, st') ->
  markerOf st' uid' = markerOf st uid'
  \/ (uid' = uid /\ markerOf st' uid' = Some (id (computePeriod now startDay))).
Proof.
  intros H. unfold markerOf.
  destruct (string_dec uid' uid) as [->|Hne].
  - destruct c; simpl in H.
    + destruct (archiveCurrentPeriod_effect _ _ _ _ _ _ _ H) as (_ & Hr & _).
      destruct r; [left; exact Hr | right; split; [reflexivity|]].
      rewrite Hr. reflexivity.
    + destruct (markPeriodAsChecked_effect _ _ _ _ _ _ _ H) as (Hr & _).
      destruct r; [left; now rewrite Hr | right; split; [reflexivity | exact Hr]].
  - left. unfold userData.
    destruct c; simpl in H.
    + destruct (archiveCurrentPeriod_effect _ _ _ _ _ _ _ H) as (_ & _ & Hf).
      now rewrite (Hf _ Hne).
    + destruct (markPeriodAsChecked_effect _ _ _ _ _ _ _ H) as (_ & Hf).
      now rewrite (Hf _ Hne).
Qed.

(** A marker for which the detector reports a new period is not after
    the current period. *)
Lemma isNew_markerLe startDay marker now :
  isNew (checkForNewPeriod startDay marker now) = true ->
  markerLe marker (Some (id (computePeriod now startDay))).
Proof.
  unfold checkForNewPeriod. cbn [isNew].
  destruct marker as [m|]; [|intros _; exact I].
  cbn [markerLe].
  destruct (stringGt m (id (computePeriod now startDay))) eqn:Hgt; [discriminate|].
  intros _. now apply stringGt_false_leb.
Qed.

(** A successful operation leaves the current period id in the marker. *)
Lemma perform_success_marker startDay unavailable c uid now (st st' : Store) :
  perform startDay unavailable c uid now st = (inr tt, st') ->
  markerOf st' uid = Some (id (computePeriod now startDay)).
Proof.
  intros H. unfold markerOf. destruct c; simpl in H.
  - destruct (archiveCurrentPeriod_effect _ _ _ _ _ _ _ H) as (_ & Hr & _).
    rewrite Hr. reflexivity.
  - destruct (markPeriodAsChecked_effect _ _ _ _ _ _ _ H) as (Hr & _). exact Hr.
Qed.

(** An operation that runs while the marker is not after the current
    period does not decrease any marker. *)
Lemma perform_markerLe startDay unavailable c uid now (st st' : Store) r uid' :
  perform startDay unavailable c uid now st = (r, st') ->
  markerLe (markerOf st uid) (Some (id (computePeriod now startDay))) ->
  markerLe (markerOf st uid') (markerOf st' uid').
Proof.
  intros Hrun Hle.
  destruct (perform_marker _ _ _ _ _ _ _ _ uid' Hrun) as [-> | [-> ->]].
  - apply markerLe_refl.
  - exact Hle.
Qed.

Lemma transition_markerLe startDay (st st' : Store) uid :
  transition startDay st st' -> markerLe (markerOf st uid) (markerOf st' uid).
Proof.
  intros [st0 st0' u now c unavailable r Hnew Hrun].
  eapply perform_markerLe; [exact Hrun|].
  exact (isNew_markerLe startDay _ now Hnew).
Qed.

(** Outside the state machine: an operation called again after a
    successful one, at an instant that is not earlier (instants of the
    years 1..9999), does not decrease the marker either. *)
Lemma successive_calls_markerLe
      startDay unavailable1 unavailable2 c1 c2 uid now1 now2 (st st1 st2 : Store) r2 :
  (1 <= year now1 <= 9999)%Z -> (1 <= year now2 <= 9999)%Z ->
  (1 <= month now1 <= 12)%Z -> (1 <= month now2 <= 12)%Z ->
  compareInstant now1 now2 <> Gt ->
  perform startDay unavailable1 c1 uid now1 st = (inr tt, st1) ->
  perform startDay unavailable2 c2 uid now2 st1 = (r2, st2) ->
  markerLe (markerOf st1 uid) (markerOf st2 uid).
Proof.
  intros Hy1 Hy2 Hm1 Hm2 Hc H1 H2.
  eapply perform_markerLe; [exact H2|].
  rewrite (perform_success_marker _ _ _ _ _ _ _ H1). cbn [markerLe].
  now apply MonthlyPeriodFacts.computePeriod_id_monotone.
Qed.


(** The state machine of the specification: along its transitions no
    marker decreases. *)
Lemma transitions_markerLe startDay (st st' : Store) uid :
  transitions startDay st st' -> markerLe (markerOf st uid) (markerOf st' uid).
Proof.
  induction 1 as [st|st st' st'' Hstep _ IH].
  - apply markerLe_refl.
  - eapply markerLe_trans; [|exact IH].
    exact (transition_markerLe startDay st st' uid Hstep).
Qed.




End PeriodManagerFacts.

(** ** The string and number primitives *)

Module JsFacts.

Import Js.
Local Open Scope string_scope.

Lemma trimStart_no_leading (s : string) : startsWithWs (trimStart s) = false.
Proof.
  induction s as [|c r IH]; simpl; [reflexivity|].
  destruct (is_ws c) eqn:E; [exact IH | simpl; exact E].
Qed.

Lemma trimEnd_no_trailing (s : string) : endsWithWs (trimEnd s) = false.
Proof.
  induction s as [|c r IH]; simpl; [reflexivity|].
  destruct (trimEnd r) as [|c' r'] eqn:E.
  - destruct (is_ws c) eqn:Ec; simpl; [reflexivity | exact Ec].
  - exact IH.
Qed.

Lemma trimEnd_keeps_head (s : string) :
  startsWithWs s = false -> startsWithWs (trimEnd s) = false.
Proof.
  destruct s as [|c r]; simpl; [reflexivity|]. intros Hc.
  destruct (trimEnd r); [rewrite Hc|]; simpl; exact Hc.
Qed.

Lemma trimStart_fixed (s : string) : startsWithWs s = false -> trimStart s = s.
Proof. destruct s as [|c r]; simpl; [reflexivity|]. now intros ->. Qed.

Lemma trimEnd_fixed (s : string) : endsWithWs s = false -> trimEnd s = s.
Proof.
  induction s as [|c r IH]; [reflexivity|].
  destruct r as [|c' r'].
  - simpl. now intros ->.
  - intros H. change (endsWithWs (String c' r') = false) in H.
    change (trimEnd (String c (String c' r')))
      with (match trimEnd (String c' r') with
            | EmptyString => if is_ws c then EmptyString else String c EmptyString
            | r0 => String c r0
            end).
    now rewrite (IH H).
Qed.

(** What [trim] returns neither begins nor ends with white space, and a
    string that neither begins nor ends with white space is returned as
    it is; so trimming twice is trimming once. *)
Lemma trim_spec (s : string) :
  startsWithWs (trim s) = false
  /\ endsWithWs (trim s) = false
  /\ (startsWithWs s = false -> endsWithWs s = false -> trim s = s)
  /\ trim (trim s) = trim s.
Proof.
  assert (H1 : startsWithWs (trim s) = false)
    by (apply trimEnd_keeps_head, trimStart_no_leading).
  assert (H2 : endsWithWs (trim s) = false) by apply trimEnd_no_trailing.
  assert (H3 : forall x, startsWithWs x = false -> endsWithWs x = false -> trim x = x).
  { intros x Hs He. unfold trim. rewrite (trimStart_fixed _ Hs). now apply trimEnd_fixed. }
  repeat split; auto.
Qed.

Lemma digit_of_range (c : ascii) (d : Z) : digit_of c = Some d -> (0 <= d <= 9)%Z.
Proof.
  unfold digit_of.
  destruct ((48 <=? nat_of_ascii c)%nat && (nat_of_ascii c <=? 57)%nat) eqn:E;
    [|discriminate].
  apply andb_true_iff in E. destruct E as [E1 E2].
  apply Nat.leb_le in E1, E2. intros H. injection H as <-. lia.
Qed.

Lemma read_digits_range (s : string) :
  forall ds rest, read_digits s = (ds, rest) -> Forall (fun d => 0 <= d <= 9)%Z ds.
Proof.
  induction s as [|c r IH]; simpl; intros ds rest H.
  - injection H as <- _. constructor.
  - destruct (digit_of c) as [d|] eqn:Ed.
    + destruct (read_digits r) as [ds' rest'] eqn:Er. injection H as <- _.
      constructor; [exact (digit_of_range _ _ Ed) | exact (IH _ _ eq_refl)].
    + injection H as <- _. constructor.
Qed.

Lemma digits_value_nonneg (ds : list Z) :
  Forall (fun d => 0 <= d <= 9)%Z ds -> (0 <= digits_value ds)%Z.
Proof.
  unfold digits_value. intros H.
  assert (G : forall acc, (0 <= acc)%Z ->
                (0 <= fold_left (fun a d => 10 * a + d) ds acc)%Z).
  { induction H as [|d l Hd _ IH]; intros acc Hacc; simpl; [exact Hacc|].
    apply IH. lia. }
  apply G. lia.
Qed.

Lemma read_sign_no_minus (s : string) :
  match s with String "-" _ => true | _ => false end = false ->
  fst (read_sign s) = false.
Proof.
  destruct s as [|c r]; [reflexivity|].
  destruct c as [[] [] [] [] [] [] [] []]; simpl; intros H;
    first [reflexivity | discriminate H].
Qed.

(** Without a minus sign in front, [parseFloat] reads no negative
    number. *)
Lemma parseFloat_no_minus (s : string) :
  startsWithMinus s = false ->
  parseFloat s = NaN \/ nonneg (parseFloat s) = true.
Proof.
  unfold startsWithMinus, parseFloat. intros Hs.
  pose proof (read_sign_no_minus (trimStart s) Hs) as Hneg.
  destruct (read_sign (trimStart s)) as [neg s2]. simpl in Hneg. subst neg.
  destruct (String.prefix "Infinity" s2); [right; reflexivity|].
  destruct (read_digits s2) as [ip s3] eqn:Eip.
  set (frac := match s3 with
               | String "."%char r => read_digits r
               | _ => ([], s3)
               end).
  assert (Hfp : Forall (fun d => 0 <= d <= 9)%Z (fst frac)).
  { subst frac. destruct s3 as [|c r]; [constructor|].
    destruct (Ascii.eqb_spec c "."%char) as [->|Hne].
    - destruct (read_digits r) as [fp s4] eqn:Efp. simpl.
      exact (read_digits_range _ _ _ Efp).
    - replace (match String c r with
               | String "."%char r0 => read_digits r0
               | _ => ([], String c r)
               end) with (@nil Z, String c r); [constructor|].
      destruct c as [[] [] [] [] [] [] [] []]; try reflexivity. congruence. }
  destruct frac as [fp s4]. simpl in Hfp.
  pose proof (read_digits_range _ _ _ Eip) as Hip.
  assert (Hnn : (0 <= (inject_Z (digits_value ip)
                       + inject_Z (digits_value fp)
                         / inject_Z (10 ^ Z.of_nat (List.length fp)))
                      * Qpower (10 # 1) (read_exponent s4))%Q).
  { apply Qmult_le_0_compat; [|apply Qpower_0_le; discriminate].
    change 0%Q with (0 + 0)%Q. apply Qplus_le_compat.
    - change 0%Q with (inject_Z 0). rewrite <- Zle_Qle. now apply digits_value_nonneg.
    - apply Qmult_le_0_compat.
      + change 0%Q with (inject_Z 0). rewrite <- Zle_Qle. now apply digits_value_nonneg.
      + apply Qinv_le_0_compat. change 0%Q with (inject_Z 0). rewrite <- Zle_Qle.
        apply Z.pow_nonneg. lia. }
  destruct ip as [|d ip']; [destruct fp as [|f fp']; [left; reflexivity|]|];
    right; cbn [nonneg]; apply Qle_bool_iff; rewrite Qred_correct; exact Hnn.
Qed.

End JsFacts.

(** ** The expense log: loading, adding and rendering together *)

Module DailyLogFlows.

Import DailyLog.

(** Without a signed-in user the effect does nothing: no store call, and
    the component stays on the loading view it starts with. *)
Theorem loadData_without_uid uid t es cs today :
  Js.truthy_opt uid = false ->
  loadData uid t es cs = []
  /\ render t (applyActions (initialState today) (loadData uid t es cs))
     = LoadingView (t "loading" []).
Proof.
  intros Hu. unfold loadData. rewrite Hu. split; reflexivity.
Qed.

Lemma loadData_without_uid_witness :
  loadData None Scenario.keys (Resolved []) (Resolved []) = []
  /\ render Scenario.keys
            (applyActions (initialState "2024-06-10")
                          (loadData None Scenario.keys (Resolved []) (Resolved [])))
     = LoadingView "loading".
Proof.
  exact (loadData_without_uid None Scenario.keys (Resolved []) (Resolved [])
           "2024-06-10" eq_refl).
Defined.

(** A load whose two reads resolve ends, from any state (also one that
    showed an error), on the log view with the loaded categories and the
    loaded expenses of the selected date; the form is not touched. *)
Theorem loadData_success uid t e c s :
  Js.truthy_opt uid = true ->
  let s' := applyActions s (loadData uid t (Resolved e) (Resolved c)) in
  s' = mkState e c (selectedCategory s) (amount s) (note s) (date s) false None
  /\ render t s'
     = LogView (date s, selectedCategory s, amount s, note s) c
               (List.filter (fun x => String.eqb (Expense.date x) (date s)) e).
Proof.
  intros Hu s'. subst s'. unfold loadData. rewrite Hu. split; reflexivity.
Qed.

Lemma loadData_success_witness :
  render Scenario.keys
         (applyActions (initialState "2024-06-10")
            (loadData (Some "u1") Scenario.keys
                      (Resolved [Scenario.lunch; Scenario.mayExpense]) (Resolved [])))
  = LogView ("2024-06-10", "", "", "") [] [Scenario.lunch].
Proof.
  exact (proj2 (loadData_success (Some "u1") Scenario.keys
                  [Scenario.lunch; Scenario.mayExpense] []
                  (initialState "2024-06-10") eq_refl)).
Defined.

(** The callbacks of a load that resolves, after anything that happened
    before: they replace the expenses and the categories and leave the
    loading view, and they never clear an error. *)
Theorem loadSettle_success_after t s acts e c :
  let before := applyActions s acts in
  applyActions s (acts ++ loadSettle t (Resolved e) (Resolved c))
  = mkState e c (selectedCategory before) (amount before) (note before) (date before)
            false (error before).
Proof.
  intros before. subst before.
  rewrite DailyLogFacts.applyActions_app. reflexivity.
Qed.

(** Two loads that overlap (the effect ran again before the first load
    settled): when one of them fails the error view is shown after both
    have settled, in whichever order they settle, also when the load that
    settled last resolved. *)
Theorem overlapping_loads_failure_persists t s u1 u2 es cs e c :
  es = Rejected \/ cs = Rejected ->
  Js.truthy (t "dailyLog.failed_to_load_data" []) = true ->
  render t (applyActions s (loadStart u1 ++ loadStart u2
                              ++ loadSettle t es cs
                              ++ loadSettle t (Resolved e) (Resolved c)))
  = ErrorView (t "dailyLog.failed_to_load_data" [])
  /\ render t (applyActions s (loadStart u1 ++ loadStart u2
                                 ++ loadSettle t (Resolved e) (Resolved c)
                                 ++ loadSettle t es cs))
     = ErrorView (t "dailyLog.failed_to_load_data" []).
Proof.
  intros Hfail Ht.
  assert (Hset : loadSettle t es cs
                 = [SetError (Some (t "dailyLog.failed_to_load_data" [])); SetLoading false]).
  { unfold loadSettle. destruct Hfail as [-> | ->]; [reflexivity | now destruct es]. }
  rewrite Hset. unfold render. simpl. rewrite Ht. split; reflexivity.
Qed.

Lemma overlapping_loads_failure_persists_witness :
  render Scenario.keys
         (applyActions Scenario.filled
            (loadStart "u1" ++ loadStart "u1"
               ++ loadSettle Scenario.keys Rejected (Resolved [])
               ++ loadSettle Scenario.keys (Resolved [Scenario.lunch]) (Resolved [])))
  = ErrorView "dailyLog.failed_to_load_data".
Proof.
  exact (proj1 (overlapping_loads_failure_persists Scenario.keys Scenario.filled
                  "u1" "u1" Rejected (Resolved []) [Scenario.lunch] []
                  (or_introl eq_refl) eq_refl)).
Defined.

(** Two loads that overlap and both resolve: the component shows the
    data of the load that settled last, not of the one that started
    last. *)
Theorem overlapping_loads_last_settled_wins t s u1 u2 e1 c1 e2 c2 :
  let s' := applyActions s (loadStart u1 ++ loadStart u2
                              ++ loadSettle t (Resolved e2) (Resolved c2)
                              ++ loadSettle t (Resolved e1) (Resolved c1)) in
  expenses s' = e1 /\ categories s' = c1
  /\ render t s'
     = LogView (date s, selectedCategory s, amount s, note s) c1
               (List.filter (fun x => String.eqb (Expense.date x) (date s)) e1).
Proof. intros s'. subst s'. repeat split; reflexivity. Qed.

(** *** Adding an expense *)

(** The expense [handleAddExpense] builds from the captured form. *)
Lemma handleAddExpense_attempted uid currency t s added reloaded :
  Js.truthy (selectedCategory s) = true ->
  Js.truthy (amount s) = true ->
  Js.truthy_opt uid = true ->
  storeWrites (handleAddExpense uid currency t s added reloaded)
  = [(default "" uid,
      NewExpense.mk (date s) (selectedCategory s)
                    (Js.parseFloat (amount s)) (Js.trim (note s)))].
Proof.
  intros Hc Ha Hu. unfold handleAddExpense. rewrite Hc, Ha, Hu.
  destruct added, reloaded; reflexivity.
Qed.

Lemma storeWrites_inv uid currency t s added reloaded u e :
  In (u, e) (storeWrites (handleAddExpense uid currency t s added reloaded)) ->
  e = NewExpense.mk (date s) (selectedCategory s)
                    (Js.parseFloat (amount s)) (Js.trim (note s)).
Proof.
  unfold handleAddExpense.
  destruct (Js.truthy (selectedCategory s)), (Js.truthy (amount s)),
    (Js.truthy_opt uid), added, reloaded; simpl; intros H;
    try contradiction; destruct H as [H|[]]; now injection H as _ <-.
Qed.

(** When the write and the reload both resolve, the list becomes the
    reloaded list (the "pending" entry is replaced by what the store
    returned), the category, amount and note are emptied, everything else
    is kept, whatever the state is when the updates are applied; the
    store is called twice, to add and then to read; the success toast is
    the only toast. *)
Theorem handleAddExpense_success uid currency t s x updated :
  Js.truthy (selectedCategory s) = true ->
  Js.truthy (amount s) = true ->
  Js.truthy_opt uid = true ->
  let acts := handleAddExpense uid currency t s (Resolved x) (Resolved updated) in
  let u := default "" uid in
  let e := NewExpense.mk (date s) (selectedCategory s)
                         (Js.parseFloat (amount s)) (Js.trim (note s)) in
  (forall cur, applyActions cur acts
               = mkState updated (categories cur) "" "" "" (date cur)
                         (loading cur) (error cur))
  /\ storeCalls acts = [AddExpense u e; GetExpenses u]
  /\ toasts acts
     = [Toast (t "dailyLog.expense_logged" [])
              (Some (t "dailyLog.spent_on"
                       [("currency", currency); ("amount", amount s);
                        ("selectedCategory", selectedCategory s)]))
              Default].
Proof.
  intros Hc Ha Hu acts u e. subst acts u e. unfold handleAddExpense.
  rewrite Hc, Ha, Hu. repeat split; reflexivity.
Qed.

Lemma handleAddExpense_success_witness :
  applyActions Scenario.filled
    (handleAddExpense (Some "u1") "$" Scenario.keys Scenario.filled
                      (Resolved tt) (Resolved [Scenario.lunch]))
  = mkState [Scenario.lunch] [BudgetCategory.mk "c1" "Food" (Js.Finite 300)]
            "" "" "" "2024-06-10" false None.
Proof.
  exact (proj1 (handleAddExpense_success (Some "u1") "$" Scenario.keys Scenario.filled
                  tt [Scenario.lunch] eq_refl eq_refl eq_refl) Scenario.filled).
Defined.

(** When the write resolves and the reload is rejected, the expense is in
    the store, yet the user is shown the success toast and then the
    "failed to add" toast; the list that is left is the "pending" entry
    in front of the list the handler's closure captured, whatever the
    list is when the update is applied. *)
Theorem handleAddExpense_reload_fails uid currency t s x :
  Js.truthy (selectedCategory s) = true ->
  Js.truthy (amount s) = true ->
  Js.truthy_opt uid = true ->
  let acts := handleAddExpense uid currency t s (Resolved x) Rejected in
  let e := NewExpense.mk (date s) (selectedCategory s)
                         (Js.parseFloat (amount s)) (Js.trim (note s)) in
  storeWrites acts = [(default "" uid, e)]
  /\ toasts acts
     = [Toast (t "dailyLog.expense_logged" [])
              (Some (t "dailyLog.spent_on"
                       [("currency", currency); ("amount", amount s);
                        ("selectedCategory", selectedCategory s)]))
              Default;
        Toast (t "dailyLog.failed_to_add_expense" []) None Destructive]
  /\ (forall cur, expenses (applyActions cur acts)
                  = NewExpense.withId "pending" e :: expenses s).
Proof.
  intros Hc Ha Hu acts e. subst acts e. unfold handleAddExpense.
  rewrite Hc, Ha, Hu. repeat split; reflexivity.
Qed.

Lemma handleAddExpense_reload_fails_witness :
  toasts (handleAddExpense (Some "u1") "$" Scenario.keys Scenario.filled
                           (Resolved tt) Rejected)
  = [Toast "dailyLog.expense_logged" (Some "dailyLog.spent_on") Default;
     Toast "dailyLog.failed_to_add_expense" None Destructive].
Proof.
  exact (proj1 (proj2 (handleAddExpense_reload_fails (Some "u1") "$" Scenario.keys
                         Scenario.filled tt eq_refl eq_refl eq_refl))).
Defined.

(** After a write that resolved and a reload that was rejected, on the
    log view and whatever the state is when the updates are applied: the
    form is emptied, and the expenses listed are those of the date that
    is selected then, among the "pending" entry and the list the handler
    captured.  So the "pending" entry is listed first when the selected
    date is still the date the handler captured, and it is not listed
    when the date has been changed meanwhile. *)
Theorem handleAddExpense_pending_rendered uid currency t s x cur :
  Js.truthy (selectedCategory s) = true ->
  Js.truthy (amount s) = true ->
  Js.truthy_opt uid = true ->
  loading cur = false ->
  error cur = None ->
  let pending :=
    NewExpense.withId "pending"
      (NewExpense.mk (date s) (selectedCategory s)
                     (Js.parseFloat (amount s)) (Js.trim (note s))) in
  let shown l := List.filter (fun e => String.eqb (Expense.date e) (date cur)) l in
  let view :=
    render t (applyActions cur (handleAddExpense uid currency t s (Resolved x) Rejected)) in
  view = LogView (date cur, "", "", "") (categories cur) (shown (pending :: expenses s))
  /\ (date cur = date s ->
      view = LogView (date cur, "", "", "") (categories cur)
                     (pending :: shown (expenses s)))
  /\ (date cur <> date s ->
      view = LogView (date cur, "", "", "") (categories cur) (shown (expenses s))).
Proof.
  intros Hc Ha Hu Hl He pending shown view.
  assert (Hview : view = LogView (date cur, "", "", "") (categories cur)
                                 (shown (pending :: expenses s))).
  { subst view shown pending. unfold handleAddExpense. rewrite Hc, Ha, Hu.
    unfold render. cbn -[Js.parseFloat Js.trim String.eqb List.filter].
    rewrite Hl, He. reflexivity. }
  split; [exact Hview|]. rewrite Hview. subst shown pending.
  cbn [List.filter NewExpense.withId Expense.date NewExpense.date].
  split; intros Hd.
  - rewrite Hd, String.eqb_refl. reflexivity.
  - destruct (String.eqb_spec (date s) (date cur)) as [E|_]; [congruence | reflexivity].
Qed.

Lemma handleAddExpense_pending_rendered_witness :
  render Scenario.keys
         (applyActions (applyAction Scenario.filled (SetDate "2024-06-11"))
            (handleAddExpense (Some "u1") "$" Scenario.keys Scenario.filled
                              (Resolved tt) Rejected))
  = LogView ("2024-06-11", "", "", "") [BudgetCategory.mk "c1" "Food" (Js.Finite 300)] [].
Proof.
  refine (proj2 (proj2 (handleAddExpense_pending_rendered (Some "u1") "$" Scenario.keys
                          Scenario.filled tt
                          (applyAction Scenario.filled (SetDate "2024-06-11"))
                          eq_refl eq_refl eq_refl eq_refl eq_refl)) _).
  discriminate.
Defined.

(** [handleAddExpense] never sets the loading flag, the error, the
    categories or the date: whatever the store does, a component that
    shows the loading view, the error view or the log view shows the same
    kind of view afterwards. *)
Theorem handleAddExpense_keeps_view uid currency t s added reloaded cur :
  let s' := applyActions cur (handleAddExpense uid currency t s added reloaded) in
  loading s' = loading cur /\ error s' = error cur
  /\ categories s' = categories cur /\ date s' = date cur
  /\ match render t cur with
     | LogView _ _ _ => exists form shown, render t s' = LogView form (categories cur) shown
     | v => render t s' = v
     end.
Proof.
  intros s'.
  assert (H : loading s' = loading cur /\ error s' = error cur
              /\ categories s' = categories cur /\ date s' = date cur).
  { subst s'. unfold handleAddExpense.
    destruct (Js.truthy (selectedCategory s)), (Js.truthy (amount s)),
      (Js.truthy_opt uid), added, reloaded; repeat split; reflexivity. }
  destruct H as (Hl & He & Hcat & Hd). repeat split; try assumption.
  unfold render. rewrite Hl, He, Hcat.
  destruct (loading cur); [reflexivity|].
  destruct (error cur) as [m|]; [destruct (Js.truthy m); [reflexivity|]|]; eauto.
Qed.

(** The note that is written to the store neither begins nor ends with
    white space, and an ASCII note that has none at either end is written
    as it was typed. *)
Theorem written_note_trimmed uid currency t s added reloaded u e :
  In (u, e) (storeWrites (handleAddExpense uid currency t s added reloaded)) ->
  Js.startsWithWs (NewExpense.note e) = false
  /\ Js.endsWithWs (NewExpense.note e) = false
  /\ (Js.isAscii (note s) = true ->
      Js.startsWithWs (note s) = false -> Js.endsWithWs (note s) = false ->
      NewExpense.note e = note s).
Proof.
  intros Hin. rewrite (storeWrites_inv _ _ _ _ _ _ _ _ Hin). cbn [NewExpense.note].
  destruct (JsFacts.trim_spec (note s)) as (H1 & H2 & H3 & _). auto.
Qed.

Lemma written_note_trimmed_witness :
  Js.startsWithWs "coffee" = false /\ Js.endsWithWs "coffee" = false
  /\ (Js.isAscii " coffee " = true ->
      Js.startsWithWs " coffee " = false -> Js.endsWithWs " coffee " = false ->
      "coffee" = " coffee ").
Proof.
  exact (written_note_trimmed (Some "u1") "$" Scenario.keys Scenario.filled
           (Resolved tt) Rejected "u1"
           (NewExpense.mk "2024-06-10" "Food" (Js.Finite (21 # 5)) "coffee")
           (or_introl eq_refl)).
Defined.

(** An ASCII amount string without a minus sign in front (after white
    space) is never written to the store as a negative number: it is
    written as [NaN] or as a number that is not below zero. *)
Theorem written_amount_sign uid currency t s added reloaded u e :
  In (u, e) (storeWrites (handleAddExpense uid currency t s added reloaded)) ->
  Js.isAscii (amount s) = true ->
  Js.startsWithMinus (amount s) = false ->
  NewExpense.amount e = Js.NaN \/ Js.nonneg (NewExpense.amount e) = true.
Proof.
  intros Hin _ Hs. rewrite (storeWrites_inv _ _ _ _ _ _ _ _ Hin). cbn [NewExpense.amount].
  now apply JsFacts.parseFloat_no_minus.
Qed.

Lemma written_amount_sign_witness :
  Js.Finite (21 # 5) = Js.NaN \/ Js.nonneg (Js.Finite (21 # 5)) = true.
Proof.
  exact (written_amount_sign (Some "u1") "$" Scenario.keys Scenario.filled
           (Resolved tt) Rejected "u1"
           (NewExpense.mk "2024-06-10" "Food" (Js.Finite (21 # 5)) "coffee")
           (or_introl eq_refl) eq_refl eq_refl).
Defined.

(** *** Rendering *)

(** The log view lists an expense exactly when it is in the state and its
    date string equals the selected date string; picking another date
    changes what is listed and not what is stored. *)
Theorem render_lists_selected_date t s d :
  loading s = false ->
  error s = None ->
  exists shown,
    render t (applyAction s (SetDate d))
    = LogView (d, selectedCategory s, amount s, note s) (categories s) shown
    /\ (forall e, In e shown <-> In e (expenses s) /\ Expense.date e = d)
    /\ expenses (applyAction s (SetDate d)) = expenses s.
Proof.
  intros Hl He. eexists. unfold render. cbn [applyAction loading error date
    expenses categories selectedCategory amount note]. rewrite Hl, He.
  split; [reflexivity|]. split; [|reflexivity].
  intros e. rewrite List.filter_In. now rewrite String.eqb_eq.
Qed.

Lemma render_lists_selected_date_witness :
  exists shown,
    render Scenario.keys (applyAction Scenario.filled (SetDate "2024-06-11"))
    = LogView ("2024-06-11", "Food", "4.20", " coffee ")
              [BudgetCategory.mk "c1" "Food" (Js.Finite 300)] shown
    /\ (forall e, In e shown <-> In e [Scenario.lunch] /\ Expense.date e = "2024-06-11")
    /\ expenses (applyAction Scenario.filled (SetDate "2024-06-11")) = [Scenario.lunch].
Proof.
  exact (render_lists_selected_date Scenario.keys Scenario.filled "2024-06-11"
           eq_refl eq_refl).
Defined.

End DailyLogFlows.

(** ** The rollover prompt, for every operation *)

Module NewPeriodPromptTraces.

Import NewPeriodPrompt.

Lemma click_handleArchiveAndStart_synchronous awaits :
  awaits ArchiveCurrentPeriod = O ->
  click (handleArchiveAndStart awaits)
  = [ Invoked ArchiveCurrentPeriod;
      Completed ArchiveCurrentPeriod;
      ToastShown "New period started! 🎉"
                 "Previous expenses have been archived and your budget is ready for the new month.";
      Closed ].
Proof.
  intros H. unfold click, handleArchiveAndStart, callWithoutAwait.
  rewrite H. reflexivity.
Qed.

Lemma not_precedes_last (a b : Event) (l : list Event) :
  ~ precedes a b (l ++ [a]) \/ In a l.
Proof.
  destruct (in_dec (fun x y : Event => ltac:(repeat decide equality) : {x = y} + {x <> y})
                   a l) as [Hin|Hnin]; [now right | left].
  intros (l1 & l2 & l3 & Heq).
  assert (Hlen : List.length (l ++ [a]) = List.length (l1 ++ a :: l2 ++ b :: l3))
    by now rewrite Heq.
  apply Hnin.
  assert (Hl : l = List.firstn (List.length l) (l1 ++ a :: l2 ++ b :: l3)).
  { rewrite <- Heq. rewrite List.firstn_app, Nat.sub_diag, List.firstn_all. simpl.
    now rewrite List.app_nil_r. }
  rewrite Hl. rewrite !List.length_app in Hlen. simpl in Hlen.
  rewrite List.length_app in Hlen. simpl in Hlen.
  rewrite List.firstn_app.
  apply List.in_or_app. right.
  replace (List.length l - List.length l1)%nat
    with (S (List.length l - List.length l1 - 1))%nat by lia.
  simpl. now left.
Qed.

(** For each button, [onClose] comes after the completion of the
    operation exactly when the operation did not suspend at all. *)
Theorem closes_after_completion_iff awaits :
  (closesAfterCompletion ArchiveCurrentPeriod (click (handleArchiveAndStart awaits))
   <-> awaits ArchiveCurrentPeriod = O)
  /\ (closesAfterCompletion MarkPeriodAsChecked (click (handleContinue awaits))
      <-> awaits MarkPeriodAsChecked = O).
Proof.
  destruct (NewPeriodPromptFacts.handlers_close_while_pending awaits) as [Ha Hc].
  split; split.
  - intros H. destruct (awaits ArchiveCurrentPeriod) eqn:E; [reflexivity|].
    exfalso. apply Ha; [discriminate | exact H].
  - intros E. rewrite (click_handleArchiveAndStart_synchronous awaits E).
    split; [simpl; tauto|].
    destruct (not_precedes_last Closed (Completed ArchiveCurrentPeriod)
                [Invoked ArchiveCurrentPeriod; Completed ArchiveCurrentPeriod;
                 ToastShown "New period started! 🎉"
                   "Previous expenses have been archived and your budget is ready for the new month."])
      as [Hn|Hin]; [exact Hn|].
    simpl in Hin. intuition discriminate.
  - intros H. destruct (awaits MarkPeriodAsChecked) eqn:E; [reflexivity|].
    exfalso. apply Hc; [discriminate | exact H].
  - intros E. now apply NewPeriodPromptFacts.click_handleContinue_synchronous.
Qed.

(** What the user sees of a click does not depend on the operation: the
    archive button shows the success toast once and then closes the
    prompt, the continue button closes it without a toast, and each
    button invokes its operation once, before anything else. *)
Theorem click_visible awaits :
  visible (click (handleArchiveAndStart awaits))
  = [ ToastShown "New period started! 🎉"
                 "Previous expenses have been archived and your budget is ready for the new month.";
      Closed ]
  /\ visible (click (handleContinue awaits)) = [Closed]
  /\ List.filter (fun e => match e with Invoked _ => true | _ => false end)
                 (click (handleArchiveAndStart awaits))
     = [Invoked ArchiveCurrentPeriod]
  /\ List.filter (fun e => match e with Invoked _ => true | _ => false end)
                 (click (handleContinue awaits))
     = [Invoked MarkPeriodAsChecked]
  /\ List.hd_error (click (handleArchiveAndStart awaits)) = Some (Invoked ArchiveCurrentPeriod)
  /\ List.hd_error (click (handleContinue awaits)) = Some (Invoked MarkPeriodAsChecked).
Proof.
  unfold click, handleArchiveAndStart, handleContinue, callWithoutAwait.
  destruct (awaits ArchiveCurrentPeriod), (awaits MarkPeriodAsChecked);
    repeat split; reflexivity.
Qed.

End NewPeriodPromptTraces.
